(** * Word of Wisdom: proof-of-work challenge/response protocol

    A shallow embedding of [cmd/server/server.go], [cmd/client/client.go]
    and [internal/config] of the Word-of-Wisdom repository, together with
    the standard-library functions they call ([strings], [strconv],
    [encoding/hex], [crypto/sha256], [time]), and the properties of the
    protocol engine proved over that embedding.

    Conventions.
    - A Go [string] is a sequence of bytes: [gostring := list ascii].
    - A Go [int] is a 64-bit two's complement integer, modelled as a [Z]
      with the wrap-around written out ([wrap64]).
    - A Go call that returns [(v, err)] or panics is an [exec]: [Val v],
      [Fail err] or [Panic msg].
    - The brute-force loop of the client is modelled with fuel; [None]
      means the fuel ran out before the loop returned. *)

From Stdlib Require Import String.
From Stdlib Require Import ZArith List Ascii Bool Lia.
Import ListNotations.

Local Open Scope Z_scope.

Ltac Zify.zify_post_hook ::= Z.to_euclidean_division_equations.

(* ================================================================== *)
(** * Go base types *)
(* ================================================================== *)

Definition gostring := list ascii.

(** A string literal of the source. *)
Definition lit (s : string) : gostring := list_ascii_of_string s.

Definition byteVal (c : ascii) : Z := Z.of_N (N_of_ascii c).
Definition byteOf (z : Z) : ascii := ascii_of_N (Z.to_N z).

(** ** 64-bit [int] *)

Definition minInt : Z := - 2 ^ 63.
Definition maxInt : Z := 2 ^ 63 - 1.

Definition wrap64 (z : Z) : Z := (z + 2 ^ 63) mod 2 ^ 64 - 2 ^ 63.

Definition inInt (z : Z) : Prop := minInt <= z <= maxInt.

(** ** Results of calls *)

Inductive error : Type :=
| ErrInvalidResponseFormat      (* errors.New("invalid response format") *)
| ErrInvalidChallengeFormat     (* fmt.Errorf("invalid challenge format") *)
| ErrInvalidTimestampFormat     (* "invalid timestamp format: %w" *)
| ErrInvalidDifficultyValue     (* "invalid difficulty value: %w" *)
| ErrSyntax                     (* strconv.ErrSyntax *)
| ErrRange                      (* strconv.ErrRange *)
| ErrParseTime                  (* *time.ParseError *)
| ErrContext                    (* ctx.Err() *)
| ErrIO.                        (* an error of conn.Read / conn.Write *)

Inductive panic : Type :=
| NegativeRepeatCount           (* "strings: negative Repeat count" *)
| InvalidArgumentToIntn.        (* "invalid argument to Intn" *)

Inductive exec (A : Type) : Type :=
| Val (a : A)
| Fail (e : error)
| Panic (p : panic).

Arguments Val {A} a.
Arguments Fail {A} e.
Arguments Panic {A} p.

Definition bind {A B : Type} (m : exec A) (k : A -> exec B) : exec B :=
  match m with
  | Val a => k a
  | Fail e => Fail e
  | Panic p => Panic p
  end.

(** A call that returns a value or an error, and does not panic. *)
Definition returns {A : Type} (m : exec A) : Prop :=
  match m with
  | Panic _ => False
  | _ => True
  end.

(** [wrapErr w m]: [if err != nil { return ..., fmt.Errorf("...: %w", err) }]. *)
Definition wrapErr {A : Type} (w : error) (m : exec A) : exec A :=
  match m with
  | Fail _ => Fail w
  | other => other
  end.

Declare Scope exec_scope.
Delimit Scope exec_scope with exec.
Notation "x <- m ;; k" := (bind m (fun x => k))
  (at level 61, m at next level, right associativity) : exec_scope.
Notation "' pat <- m ;; k" := (bind m (fun x => match x with pat => k end))
  (at level 61, pat pattern, m at next level, right associativity) : exec_scope.

(* ================================================================== *)
(** * Package [strings] *)
(* ================================================================== *)

Module Strings.

(** [strings.HasPrefix(s, prefix)]:
    [len(s) >= len(prefix) && s[:len(prefix)] == prefix]. *)
Fixpoint HasPrefix (s prefix : gostring) {struct prefix} : bool :=
  match prefix with
  | [] => true
  | p :: prefix' =>
      match s with
      | c :: s' => Ascii.eqb c p && HasPrefix s' prefix'
      | [] => false
      end
  end.

(** [strings.TrimPrefix(s, prefix)]: [s] without the leading [prefix];
    [s] unchanged when it does not start with [prefix]. *)
Definition TrimPrefix (s prefix : gostring) : gostring :=
  if HasPrefix s prefix then skipn (length prefix) s else s.

(** [strings.Repeat(s, count)]: panics on a negative count. Its other
    panic, on a result longer than the largest [int], cannot occur for the
    one-byte string the source repeats. *)
Definition Repeat (s : gostring) (count : Z) : exec gostring :=
  if count <? 0 then Panic NegativeRepeatCount
  else Val (concat (repeat s (Z.to_nat count))).

(** [strings.Split(s, sep)] for a one-byte separator (the source only
    ever passes [";"]): the substrings between the separators, always at
    least one element. *)
Fixpoint Split (s : gostring) (sep : ascii) : list gostring :=
  match s with
  | [] => [[]]
  | c :: s' =>
      if Ascii.eqb c sep then [] :: Split s' sep
      else match Split s' sep with
           | [] => [[c]]
           | h :: t => (c :: h) :: t
           end
  end.

(** The UTF-8 encodings of the code points for which [unicode.IsSpace]
    holds: the six ASCII ones, U+0085, U+00A0, U+1680, U+2000..U+200A,
    U+2028, U+2029, U+202F, U+205F, U+3000. *)
Definition spaceEncodings : list (list Z) :=
  [ [9]; [10]; [11]; [12]; [13]; [32];
    [194; 133]; [194; 160]; [225; 154; 128];
    [226; 128; 128]; [226; 128; 129]; [226; 128; 130]; [226; 128; 131];
    [226; 128; 132]; [226; 128; 133]; [226; 128; 134]; [226; 128; 135];
    [226; 128; 136]; [226; 128; 137]; [226; 128; 138];
    [226; 128; 168]; [226; 128; 169]; [226; 128; 175];
    [226; 129; 159]; [227; 128; 128] ].

Definition spaces : list gostring := map (map byteOf) spaceEncodings.

(** The first of [encs] that [s] starts with. *)
Definition leadingSpace (encs : list gostring) (s : gostring) : option gostring :=
  find (HasPrefix s) encs.

(** Strip leading white space: at most [fuel] code points. *)
Fixpoint trimLeft (encs : list gostring) (fuel : nat) (s : gostring) : gostring :=
  match fuel with
  | O => s
  | S fuel' =>
      match leadingSpace encs s with
      | Some e => trimLeft encs fuel' (skipn (length e) s)
      | None => s
      end
  end.

(** [strings.TrimSpace(s)]: [s] without leading and trailing white space
    as defined by Unicode. The trailing side is the leading side of the
    reversed string against the reversed encodings. *)
Definition TrimSpace (s : gostring) : gostring :=
  let l := trimLeft spaces (length s) s in
  rev (trimLeft (map (@rev ascii) spaces) (length l) (rev l)).

End Strings.

(* ================================================================== *)
(** * Package [strconv] and the verb [%d] *)
(* ================================================================== *)

Module Strconv.

Definition isDigit (c : ascii) : bool :=
  (48 <=? byteVal c) && (byteVal c <=? 57).

Definition digitChar (d : Z) : ascii := byteOf (48 + d).
Definition digitVal (c : ascii) : Z := byteVal c - 48.

(** Decimal digits of a non-negative number, most significant first. *)
Fixpoint udigits (fuel : nat) (u : Z) : gostring :=
  match fuel with
  | O => []
  | S fuel' =>
      if u <? 10 then [digitChar u]
      else udigits fuel' (u / 10) ++ [digitChar (u mod 10)]
  end.

Definition formatUint (u : Z) : gostring :=
  udigits (S (Z.to_nat (Z.log2 u))) u.

(** [strconv.Itoa(i)], which is also what [fmt.Sprintf("%d", i)] prints. *)
Definition Itoa (i : Z) : gostring :=
  if i <? 0 then "-"%char :: formatUint (- i) else formatUint i.

(** The value of a string of decimal digits. *)
Definition digitsValue (s : gostring) : Z :=
  fold_left (fun acc c => acc * 10 + digitVal c) s 0.

(** [strconv.Atoi(s)]: an optional sign, then one or more decimal digits;
    [ErrSyntax] otherwise, [ErrRange] when the value does not fit an
    [int]. *)
Definition Atoi (s : gostring) : exec Z :=
  let '(neg, ds) :=
    match s with
    | c :: r =>
        if Ascii.eqb c "-" then (true, r)
        else if Ascii.eqb c "+" then (false, r)
        else (false, s)
    | [] => (false, s)
    end in
  match ds with
  | [] => Fail ErrSyntax
  | _ =>
      if forallb isDigit ds then
        let v := if neg then - digitsValue ds else digitsValue ds in
        if (minInt <=? v) && (v <=? maxInt) then Val v else Fail ErrRange
      else Fail ErrSyntax
  end.

End Strconv.

(* ================================================================== *)
(** * Packages [crypto/sha256] and [encoding/hex] *)
(* ================================================================== *)

Module Sha256.

(** SHA-256 as laid down in FIPS 180-4, on 32-bit words held in [Z]. *)

Definition add32 (x y : Z) : Z := (x + y) mod 2 ^ 32.

Definition rotr (n x : Z) : Z :=
  Z.lor (Z.shiftr x n) (Z.shiftl x (32 - n) mod 2 ^ 32).

Definition shr (n x : Z) : Z := Z.shiftr x n.

Definition not32 (x : Z) : Z := 2 ^ 32 - 1 - x.

Definition ch (x y z : Z) : Z :=
  Z.lxor (Z.land x y) (Z.land (not32 x) z).

Definition maj (x y z : Z) : Z :=
  Z.lxor (Z.lxor (Z.land x y) (Z.land x z)) (Z.land y z).

Definition bsig0 (x : Z) : Z := Z.lxor (Z.lxor (rotr 2 x) (rotr 13 x)) (rotr 22 x).
Definition bsig1 (x : Z) : Z := Z.lxor (Z.lxor (rotr 6 x) (rotr 11 x)) (rotr 25 x).
Definition ssig0 (x : Z) : Z := Z.lxor (Z.lxor (rotr 7 x) (rotr 18 x)) (shr 3 x).
Definition ssig1 (x : Z) : Z := Z.lxor (Z.lxor (rotr 17 x) (rotr 19 x)) (shr 10 x).

(** The first 64 primes. *)
Definition primes : list Z :=
  [ 2; 3; 5; 7; 11; 13; 17; 19; 23; 29; 31; 37; 41; 43; 47; 53; 59; 61; 67; 71;
    73; 79; 83; 89; 97; 101; 103; 107; 109; 113; 127; 131; 137; 139; 149; 151;
    157; 163; 167; 173; 179; 181; 191; 193; 197; 199; 211; 223; 227; 229; 233;
    239; 241; 251; 257; 263; 269; 271; 277; 281; 283; 293; 307; 311 ].

(** The largest [r] below [2 ^ bits] with [r ^ 3 <= x], bit by bit. *)
Fixpoint cubeRoot (bits : nat) (x r : Z) : Z :=
  match bits with
  | O => r
  | S bits' =>
      let r' := r + 2 ^ Z.of_nat bits' in
      cubeRoot bits' x (if r' * r' * r' <=? x then r' else r)
  end.

(** The first 32 bits of the fractional part of the cube root (of the
    square root) of [p]. *)
Definition fracCubeRoot (p : Z) : Z := cubeRoot 40 (p * 2 ^ 96) 0 mod 2 ^ 32.
Definition fracSquareRoot (p : Z) : Z := Z.sqrt (p * 2 ^ 64) mod 2 ^ 32.

(** The constants K of section 4.2.2 and the initial hash value of
    section 5.3.3. *)
Definition roundConstants : list Z :=
  Eval vm_compute in map fracCubeRoot primes.

Definition initialHash : list Z :=
  Eval vm_compute in map fracSquareRoot (firstn 8 primes).

(** Big-endian bytes of a number: [n] bytes. *)
Fixpoint bigEndian (n : nat) (x : Z) : list Z :=
  match n with
  | O => []
  | S n' => bigEndian n' (x / 256) ++ [x mod 256]
  end.

(** The padded message: a 1 bit, zeros up to 56 modulo 64 bytes, then the
    bit length on 8 bytes. *)
Definition pad (msg : list Z) : list Z :=
  let len := Z.of_nat (length msg) in
  msg ++ [128] ++ repeat 0 (Z.to_nat ((55 - len) mod 64)) ++ bigEndian 8 (8 * len).

(** Big-endian 32-bit words of a byte sequence. *)
Fixpoint toWords (fuel : nat) (bs : list Z) : list Z :=
  match fuel, bs with
  | S fuel', b0 :: b1 :: b2 :: b3 :: rest =>
      (((b0 * 256 + b1) * 256 + b2) * 256 + b3) :: toWords fuel' rest
  | _, _ => []
  end.

(** Split into blocks of 16 words. *)
Fixpoint blocks (fuel : nat) (ws : list Z) : list (list Z) :=
  match fuel, ws with
  | S fuel', _ :: _ => firstn 16 ws :: blocks fuel' (skipn 16 ws)
  | _, _ => []
  end.

(** The message schedule: [w] holds the words computed so far. *)
Fixpoint schedule (n : nat) (w : list Z) : list Z :=
  match n with
  | O => w
  | S n' =>
      let t := length w in
      let at_ (k : nat) := nth (t - k) w 0 in
      schedule n'
        (w ++ [add32 (add32 (ssig1 (at_ 2%nat)) (at_ 7%nat))
                     (add32 (ssig0 (at_ 15%nat)) (at_ 16%nat))])
  end.

Record vars : Type := Vars { va : Z; vb : Z; vc : Z; vd : Z; ve : Z; vf : Z; vg : Z; vh : Z }.

Definition round (v : vars) (kw : Z * Z) : vars :=
  let '(k, w) := kw in
  let t1 := add32 (add32 (add32 (add32 (vh v) (bsig1 (ve v))) (ch (ve v) (vf v) (vg v))) k) w in
  let t2 := add32 (bsig0 (va v)) (maj (va v) (vb v) (vc v)) in
  Vars (add32 t1 t2) (va v) (vb v) (vc v) (add32 (vd v) t1) (ve v) (vf v) (vg v).

Definition ofList (h : list Z) : vars :=
  Vars (nth 0 h 0) (nth 1 h 0) (nth 2 h 0) (nth 3 h 0)
       (nth 4 h 0) (nth 5 h 0) (nth 6 h 0) (nth 7 h 0).

Definition toList (v : vars) : list Z :=
  [va v; vb v; vc v; vd v; ve v; vf v; vg v; vh v].

Definition compress (h : list Z) (block : list Z) : list Z :=
  let w := schedule 48 block in
  let v := fold_left round (combine roundConstants w) (ofList h) in
  map (fun p => add32 (fst p) (snd p)) (combine h (toList v)).

(** [sha256.Sum256(data)]: the 32 bytes of the digest. *)
Definition Sum256 (data : gostring) : gostring :=
  let padded := pad (map byteVal data) in
  let ws := toWords (length padded) padded in
  let h := fold_left compress (blocks (length ws) ws) initialHash in
  map byteOf (concat (map (bigEndian 4) h)).

End Sha256.

Module Hex.

Definition hextable : gostring := lit "0123456789abcdef".

Definition hexDigit (n : Z) : ascii := nth (Z.to_nat n) hextable "0"%char.

(** [hex.EncodeToString(src)]: two lowercase hexadecimal characters per
    byte, the high nibble first. *)
Definition EncodeToString (src : gostring) : gostring :=
  concat (map (fun b => [hexDigit (byteVal b / 16); hexDigit (byteVal b mod 16)]) src).

End Hex.

(* ================================================================== *)
(** * Package [time] *)
(* ================================================================== *)

Module Time.

Import Strconv.

(** ** Durations: [int64] nanoseconds *)

Definition Duration := Z.

Definition minDuration : Duration := minInt.
Definition maxDuration : Duration := maxInt.
Definition Second : Duration := 1000000000.
Definition Minute : Duration := 60 * Second.

(** ** Instants

    A [time.Time] is held by what its accessors [Date], [Clock],
    [Nanosecond] and [Zone] expose: the civil reading in its location and
    the offset of that location east of UTC, in seconds. *)

Record Time : Type := mkTime {
  year : Z;
  month : Z;
  day : Z;
  hour : Z;
  minute : Z;
  second : Z;
  nanosecond : Z;
  offset : Z
}.

Definition isLeap (y : Z) : bool :=
  (y mod 4 =? 0) && (negb (y mod 100 =? 0) || (y mod 400 =? 0)).

(** [daysBefore[m]]: the days of a non-leap year before month [m+1]. *)
Definition daysBefore : list Z :=
  [0; 31; 59; 90; 120; 151; 181; 212; 243; 273; 304; 334; 365].

Definition daysIn (m y : Z) : Z :=
  if (m =? 2) && isLeap y then 29
  else nth (Z.to_nat m) daysBefore 0 - nth (Z.to_nat (m - 1)) daysBefore 0.

(** The readings a [time.Time] can have. *)
Definition validTime (t : Time) : bool :=
  (1 <=? month t) && (month t <=? 12) &&
  (1 <=? day t) && (day t <=? daysIn (month t) (year t)) &&
  (0 <=? hour t) && (hour t <? 24) &&
  (0 <=? minute t) && (minute t <? 60) &&
  (0 <=? second t) && (second t <? 60) &&
  (0 <=? nanosecond t) && (nanosecond t <? 1000000000).

(** Days from 0001-01-01 to the first day of year [y]. *)
Definition daysBeforeYear (y : Z) : Z :=
  365 * (y - 1) + (y - 1) / 4 - (y - 1) / 100 + (y - 1) / 400.

(** Days from 0001-01-01 to the date of [t], as [time.Date] counts them. *)
Definition dayNumber (t : Time) : Z :=
  daysBeforeYear (year t)
  + nth (Z.to_nat (month t - 1)) daysBefore 0
  + (if isLeap (year t) && (3 <=? month t) then 1 else 0)
  + (day t - 1).

(** Nanoseconds from 0001-01-01T00:00:00Z to the instant of [t]. *)
Definition instant (t : Time) : Z :=
  (dayNumber t * 86400 + hour t * 3600 + minute t * 60 + second t - offset t)
  * 1000000000 + nanosecond t.

(** [t.Sub(u)]: the duration [t-u]; the maximum (or minimum) duration
    when the difference exceeds what a [Duration] holds. *)
Definition Sub (t u : Time) : Duration :=
  let d := instant t - instant u in
  if d <? minDuration then minDuration
  else if maxDuration <? d then maxDuration
  else d.

(** [time.Since(t)], with [now] the reading of the clock at the call. *)
Definition Since (now t : Time) : Duration := Sub now t.

(** ** [t.Format(time.RFC3339Nano)] *)

(** [appendInt(b, x, width)]: the decimal form of [x], zero-padded to
    [width]. *)
Definition appendInt (x width : Z) : gostring :=
  let u := Z.abs x in
  (if x <? 0 then ["-"%char] else []) ++
  (if (width =? 2) && (u <? 100) then
     [digitChar (u / 10); digitChar (u mod 10)]
   else if (width =? 4) && (u <? 10000) then
     [digitChar (u / 1000); digitChar (u / 100 mod 10);
      digitChar (u / 10 mod 10); digitChar (u mod 10)]
   else
     let ds := formatUint u in
     repeat "0"%char (Z.to_nat (width - Z.of_nat (length ds))) ++ ds).

(** Drop the trailing ['0'] characters. *)
Fixpoint trimZeros (s : gostring) : gostring :=
  match s with
  | [] => []
  | c :: s' =>
      match trimZeros s' with
      | [] => if Ascii.eqb c "0" then [] else [c]
      | r => c :: r
      end
  end.

(** [appendNano] for the layout element [.999999999]: nothing for zero
    nanoseconds, otherwise the nine digits without trailing zeros. *)
Definition appendNano (nanosec : Z) : gostring :=
  if nanosec =? 0 then []
  else "."%char :: trimZeros (appendInt nanosec 9).

(** The zone of the layout element [Z07:00]. *)
Definition appendZone (off : Z) : gostring :=
  if off =? 0 then ["Z"%char]
  else
    let zone := Z.quot off 60 in
    (if zone <? 0 then ["-"%char] else ["+"%char]) ++
    appendInt (Z.abs zone / 60) 2 ++ [":"%char] ++ appendInt (Z.abs zone mod 60) 2.

Definition FormatRFC3339Nano (t : Time) : gostring :=
  appendInt (year t) 4 ++ ["-"%char] ++ appendInt (month t) 2 ++ ["-"%char] ++
  appendInt (day t) 2 ++ ["T"%char] ++
  appendInt (hour t) 2 ++ [":"%char] ++ appendInt (minute t) 2 ++ [":"%char] ++
  appendInt (second t) 2 ++
  appendNano (nanosecond t) ++
  appendZone (offset t).

(** ** [time.Parse(time.RFC3339Nano, value)] *)

(** [getnum(s, fixed)]: a number of one or two digits; two are required
    when [fixed]. *)
Definition getnum (s : gostring) (fixed : bool) : exec (Z * gostring) :=
  match s with
  | c0 :: rest =>
      if isDigit c0 then
        match rest with
        | c1 :: rest' =>
            if isDigit c1 then Val (digitVal c0 * 10 + digitVal c1, rest')
            else if fixed then Fail ErrParseTime
            else Val (digitVal c0, rest)
        | [] => if fixed then Fail ErrParseTime else Val (digitVal c0, rest)
        end
      else Fail ErrParseTime
  | [] => Fail ErrParseTime
  end.

(** A literal byte of the layout. *)
Definition skip (c : ascii) (value : gostring) : exec gostring :=
  match value with
  | c' :: rest => if Ascii.eqb c' c then Val rest else Fail ErrParseTime
  | [] => Fail ErrParseTime
  end.

Definition inRange (lo hi x : Z) : exec unit :=
  if (lo <=? x) && (x <=? hi) then Val tt else Fail ErrParseTime.

(** Layout element [2006]: exactly four digits. *)
Definition parseYear (value : gostring) : exec (Z * gostring) :=
  match value with
  | c0 :: c1 :: c2 :: c3 :: rest =>
      if forallb isDigit [c0; c1; c2; c3]
      then Val (digitsValue [c0; c1; c2; c3], rest)
      else Fail ErrParseTime
  | _ => Fail ErrParseTime
  end.

Definition commaOrPeriod (c : ascii) : bool :=
  Ascii.eqb c "." || Ascii.eqb c ",".

Fixpoint takeDigits (s : gostring) : gostring :=
  match s with
  | c :: s' => if isDigit c then c :: takeDigits s' else []
  | [] => []
  end.

(** Layout element [.999999999]: an optional fraction of a second, of any
    number of digits, of which the first nine count. *)
Definition parseFraction (value : gostring) : Z * gostring :=
  match value with
  | sep :: c1 :: _ =>
      if commaOrPeriod sep && isDigit c1 then
        let ds := takeDigits (tl value) in
        let used := firstn 9 ds in
        (digitsValue used * 10 ^ (9 - Z.of_nat (length used)),
         skipn (S (length ds)) value)
      else (0, value)
  | _ => (0, value)
  end.

(** A numeric zone: a sign, two digits, a colon and two digits. The
    offset is in seconds. *)
Definition parseOffset (value : gostring) : exec (Z * gostring) :=
  match value with
  | sign :: h0 :: h1 :: colon :: m0 :: m1 :: rest =>
      if Ascii.eqb colon ":" then
        ('(hr, _) <- getnum [h0; h1] true ;;
         '(mm, _) <- getnum [m0; m1] true ;;
         _ <- inRange 0 24 hr ;;
         _ <- inRange 0 60 mm ;;
         let zoneOffset := (hr * 60 + mm) * 60 in
         if Ascii.eqb sign "+" then Val (zoneOffset, rest)
         else if Ascii.eqb sign "-" then Val (- zoneOffset, rest)
         else Fail ErrParseTime)%exec
      else Fail ErrParseTime
  | _ => Fail ErrParseTime
  end.

(** Layout element [Z07:00]: [Z] for UTC, a numeric zone otherwise. *)
Definition parseZone (value : gostring) : exec (Z * gostring) :=
  match value with
  | c :: rest => if Ascii.eqb c "Z" then Val (0, rest) else parseOffset value
  | [] => parseOffset value
  end.

Definition ParseRFC3339Nano (value : gostring) : exec Time :=
  ('(y, value) <- parseYear value ;;
   value <- skip "-" value ;;
   '(mo, value) <- getnum value true ;;
   _ <- inRange 1 12 mo ;;
   value <- skip "-" value ;;
   '(d, value) <- getnum value true ;;
   value <- skip "T" value ;;
   '(h, value) <- getnum value false ;;
   _ <- inRange 0 23 h ;;
   value <- skip ":" value ;;
   '(mi, value) <- getnum value true ;;
   _ <- inRange 0 59 mi ;;
   value <- skip ":" value ;;
   '(s, value) <- getnum value true ;;
   _ <- inRange 0 59 s ;;
   let '(ns, value) := parseFraction value in
   '(off, value) <- parseZone value ;;
   match value with
   | _ :: _ => Fail ErrParseTime             (* extra text *)
   | [] =>
       if (d <? 1) || (daysIn mo y <? d) then Fail ErrParseTime
       else Val (mkTime y mo d h mi s ns off)
   end)%exec.

End Time.

(* ================================================================== *)
(** * Package [net]: one connection *)
(* ================================================================== *)

Module Net.

(** One end of a TCP connection, as the code uses it: the bytes written
    so far, whether a [Write] succeeds, and what the next [Read] returns
    (chosen by the peer and the network). *)
Record Conn : Type := mkConn {
  sent : gostring;
  writable : bool;
  incoming : exec gostring
}.

(** [conn.Write(b)]. *)
Definition Write (c : Conn) (b : gostring) : Conn * exec unit :=
  if writable c
  then (mkConn (sent c ++ b) (writable c) (incoming c), Val tt)
  else (c, Fail ErrIO).

(** [n, err := conn.Read(buffer)] followed by [buffer[:n]], for a buffer
    of [size] bytes. *)
Definition Read (c : Conn) (size : nat) : exec gostring :=
  match incoming c with
  | Val data => Val (firstn size data)
  | other => other
  end.

End Net.

(* ================================================================== *)
(** * Package [internal/config] *)
(* ================================================================== *)

Module Config.

Record ServerConfig : Type := mkServerConfig {
  Host : gostring;
  Port : Z;
  MaxConnections : Z;
  ConnectionTimeout : Time.Duration;
  TimeWindow : Time.Duration;
  MinDifficulty : Z;
  MaxDifficulty : Z
}.

Record ClientConfig : Type := mkClientConfig {
  ServerAddress : gostring;
  ClientConnectionTimeout : Time.Duration;     (* ClientConfig.ConnectionTimeout *)
  MaxNonce : Z
}.

End Config.

(* ================================================================== *)
(** * [cmd/server/server.go] *)
(* ================================================================== *)

Module Server.

Import Strings Strconv Net Config.

Definition letters : gostring :=
  lit "abcdefghijklmnopqrstuvwxyzABCDEFGHIJKLMNOPQRSTUVWXYZ0123456789".

Definition maxDifficultyClientCount : Z := 50.
Definition minDifficultyClientCount : Z := 20.

Definition runes : list ascii := letters.

(** The server. The listener and the logger carry no state the protocol
    depends on; the mutex is the atomicity of the three functions that
    take it. *)
Record WordOfWisdomServer : Type := mkServer {
  config : ServerConfig;
  quotes : list gostring;
  clientLoad : Z
}.

Definition NewServer (cfg : ServerConfig) : WordOfWisdomServer :=
  {| config := cfg;
     quotes :=
       [ lit "The only true wisdom is in knowing you know nothing. - Socrates";
         lit "The journey of a thousand miles begins with one step. - Lao Tzu";
         lit "That which does not kill us makes us stronger. - Friedrich Nietzsche";
         lit "Life is what happens when you’re busy making other plans. - John Lennon";
         lit "When the going gets tough, the tough get going. - Joe Kennedy" ];
     clientLoad := 0 |}.

Definition withLoad (s : WordOfWisdomServer) (l : Z) : WordOfWisdomServer :=
  {| config := config s; quotes := quotes s; clientLoad := l |}.

(** [s.clientLoad++] *)
Definition incrementClientLoad (s : WordOfWisdomServer) : WordOfWisdomServer :=
  withLoad s (wrap64 (clientLoad s + 1)).

(** [s.clientLoad--] *)
Definition decrementClientLoad (s : WordOfWisdomServer) : WordOfWisdomServer :=
  withLoad s (wrap64 (clientLoad s - 1)).

Definition adjustDifficulty (s : WordOfWisdomServer) : Z :=
  if clientLoad s >? maxDifficultyClientCount then
    MaxDifficulty (config s)
  else if clientLoad s >? minDifficultyClientCount then
    wrap64 (MaxDifficulty (config s) - 1)
  else
    MinDifficulty (config s).

(** [generateChallenge]: 64 runes, the [i]-th being [runes[r.Intn(len(runes))]];
    [intn i] is the [i]-th number drawn from the generator. *)
Definition generateChallenge (intn : nat -> nat) : gostring :=
  map (fun i => nth (intn i mod length runes) runes "a"%char) (seq 0 64).

(** The line [sendChallenge] writes. *)
Definition challengeMessage (challenge : gostring) (timestamp : Time.Time)
    (difficulty : Z) : gostring :=
  lit "Challenge:" ++ challenge ++ lit ";Timestamp:" ++
  Time.FormatRFC3339Nano timestamp ++ lit ";Difficulty:" ++ Itoa difficulty ++
  ["010"%char].

Definition sendChallenge (conn : Conn) (challenge : gostring)
    (timestamp : Time.Time) (difficulty : Z) : Conn * exec unit :=
  Write conn (challengeMessage challenge timestamp difficulty).

Definition parseResponse (response : gostring) : exec (gostring * Time.Time) :=
  let parts := Split response ";" in
  match parts with
  | [part0; part1] =>
      let nonce := TrimPrefix part0 (lit "Nonce:") in
      let timestampStr := TrimPrefix part1 (lit "Timestamp:") in
      (timestamp <- wrapErr ErrInvalidTimestampFormat
                      (Time.ParseRFC3339Nano timestampStr) ;;
       Val (nonce, timestamp))%exec
  | _ => Fail ErrInvalidResponseFormat
  end.

Definition receiveResponse (conn : Conn) : exec (gostring * Time.Time) :=
  (data <- Read conn 4096 ;;
   parseResponse (TrimSpace data))%exec.

(** [verifyPoW]; [now] is the reading of the clock at the call of
    [time.Since]. *)
Definition verifyPoW (s : WordOfWisdomServer) (now : Time.Time)
    (challenge nonce : gostring) (clientTimestamp serverTimestamp : Time.Time)
    (difficulty : Z) : exec bool :=
  if Time.Since now clientTimestamp >? TimeWindow (config s) then
    Val false
  else
    let data := challenge ++ nonce ++ Time.FormatRFC3339Nano serverTimestamp in
    let hash := Sha256.Sum256 data in
    let hashHex := Hex.EncodeToString hash in
    (requiredPrefix <- Repeat (lit "0") difficulty ;;
     Val (HasPrefix hashHex requiredPrefix))%exec.

(** [getRandomQuote]; [intn] is the number drawn from the generator. *)
Definition getRandomQuote (s : WordOfWisdomServer) (intn : nat) : exec gostring :=
  match quotes s with
  | [] => Panic InvalidArgumentToIntn
  | _ => Val (nth (intn mod length (quotes s)) (quotes s) [])
  end.

Definition sendQuote (conn : Conn) (quote : gostring) : Conn * exec unit :=
  Write conn (lit "Quote:" ++ quote ++ ["010"%char]).

Definition sendError (conn : Conn) (errorMessage : gostring) : Conn :=
  fst (Write conn (lit "Error:" ++ errorMessage ++ ["010"%char])).

(** ** [handleConnection], statement by statement

    Other sessions run between the statements of one session and change
    [clientLoad]; the session is therefore a machine whose steps are the
    statements of [handleConnection], and a run interleaves them with the
    load changes of the other sessions. *)

Inductive phase : Type :=
| Accepted                (* before [s.incrementClientLoad()] *)
| Counted                 (* before [s.adjustDifficulty()] *)
| Adjusted (difficulty : Z)
                          (* before [generateChallenge], [time.Now], [sendChallenge] *)
| ChallengeSent (difficulty : Z) (challenge : gostring) (serverTimestamp : Time.Time)
                          (* before [s.receiveResponse(conn)] *)
| Received (difficulty : Z) (challenge : gostring) (serverTimestamp : Time.Time)
           (nonce : gostring) (clientTimestamp : Time.Time)
                          (* before [s.verifyPoW(...)] *)
| Leaving                 (* the deferred [s.decrementClientLoad()] is due *)
| Closed                  (* returned; the connection is closed *)
| Crashed (p : panic).    (* a panic unwinds the goroutine *)

(** The calls a session has made, with the load at the time of the call. *)
Inductive call : Type :=
| CallAdjustDifficulty (load : Z) (result : Z)
| CallVerifyPoW (load : Z) (difficulty : Z) (result : exec bool).

Record session : Type := mkSession {
  at_ : phase;
  conn : Conn;
  calls : list call
}.

(** What the environment supplies to a step: the clock and the random
    generator. *)
Record input : Type := mkInput {
  now : Time.Time;           (* [time.Now()], read in UTC where the code does *)
  intn : nat -> nat          (* the numbers [r.Intn] returns *)
}.

Definition step (i : input) (s : WordOfWisdomServer) (x : session)
  : WordOfWisdomServer * session :=
  match at_ x with
  | Accepted =>
      (incrementClientLoad s, mkSession Counted (conn x) (calls x))
  | Counted =>
      let difficulty := adjustDifficulty s in
      (s, mkSession (Adjusted difficulty) (conn x)
            (calls x ++ [CallAdjustDifficulty (clientLoad s) difficulty]))
  | Adjusted difficulty =>
      let challenge := generateChallenge (intn i) in
      let serverTimestamp := now i in
      match sendChallenge (conn x) challenge serverTimestamp difficulty with
      | (c, Val _) =>
          (s, mkSession (ChallengeSent difficulty challenge serverTimestamp) c (calls x))
      | (c, _) => (s, mkSession Leaving c (calls x))
      end
  | ChallengeSent difficulty challenge serverTimestamp =>
      match receiveResponse (conn x) with
      | Val (nonce, clientTimestamp) =>
          (s, mkSession (Received difficulty challenge serverTimestamp nonce clientTimestamp)
                (conn x) (calls x))
      | _ => (s, mkSession Leaving (conn x) (calls x))
      end
  | Received difficulty challenge serverTimestamp nonce clientTimestamp =>
      let r := verifyPoW s (now i) challenge nonce clientTimestamp serverTimestamp
                 difficulty in
      let calls' := calls x ++ [CallVerifyPoW (clientLoad s) difficulty r] in
      match r with
      | Val true =>
          match getRandomQuote s (intn i 0%nat) with
          | Val quote => (s, mkSession Leaving (fst (sendQuote (conn x) quote)) calls')
          | Fail _ => (s, mkSession Leaving (conn x) calls')
          | Panic p => (decrementClientLoad s, mkSession (Crashed p) (conn x) calls')
          end
      | Val false =>
          (s, mkSession Leaving (sendError (conn x) (lit "Invalid proof of work.")) calls')
      | Fail _ => (s, mkSession Leaving (conn x) calls')
      | Panic p => (decrementClientLoad s, mkSession (Crashed p) (conn x) calls')
      end
  | Leaving => (decrementClientLoad s, mkSession Closed (conn x) (calls x))
  | Closed => (s, x)
  | Crashed _ => (s, x)
  end.

(** What happens between two statements of a session. *)
Inductive action : Type :=
| Own (i : input)         (* the session executes its next statement *)
| OtherEnters             (* another session calls [incrementClientLoad] *)
| OtherLeaves.            (* another session calls [decrementClientLoad] *)

Definition act (a : action) (st : WordOfWisdomServer * session)
  : WordOfWisdomServer * session :=
  match a with
  | Own i => step i (fst st) (snd st)
  | OtherEnters => (incrementClientLoad (fst st), snd st)
  | OtherLeaves => (decrementClientLoad (fst st), snd st)
  end.

Definition run (acts : list action) (st : WordOfWisdomServer * session)
  : WordOfWisdomServer * session :=
  fold_left (fun st a => act a st) acts st.

Definition start (c : Conn) : session := mkSession Accepted c [].

(** [handleConnection] when no other session interferes: its statements
    one after the other, the [k]-th with the input [inputs k]. *)
Definition handleConnection (inputs : nat -> input) (s : WordOfWisdomServer)
    (c : Conn) : WordOfWisdomServer * session :=
  run (map (fun k => Own (inputs k)) (seq 0 6)) (s, start c).

End Server.

(* ================================================================== *)
(** * [cmd/client/client.go] *)
(* ================================================================== *)

Module Client.

Import Strings Strconv Net Config.

Record WordOfWisdomClient : Type := mkClient {
  config : ClientConfig
}.

Definition NewClient (cfg : ClientConfig) : WordOfWisdomClient :=
  {| config := cfg |}.

Definition receiveChallenge (conn : Conn) : exec (gostring * Time.Time * Z) :=
  (data <- Read conn 4096 ;;
   let message := TrimSpace data in
   let parts := Split message ";" in
   match parts with
   | [part0; part1; part2] =>
       let challenge := TrimPrefix part0 (lit "Challenge:") in
       let timestampStr := TrimPrefix part1 (lit "Timestamp:") in
       let difficultyStr := TrimPrefix part2 (lit "Difficulty:") in
       serverTimestamp <- wrapErr ErrInvalidTimestampFormat
                            (Time.ParseRFC3339Nano timestampStr) ;;
       difficulty <- wrapErr ErrInvalidDifficultyValue (Atoi difficultyStr) ;;
       Val (challenge, serverTimestamp, difficulty)
   | _ => Fail ErrInvalidChallengeFormat
   end)%exec.

(** The [for] loop of [solvePoW]. [done k] tells whether [ctx.Done()] is
    closed when iteration [k] polls it; [None]: the loop is still running
    after [fuel] iterations. *)
Fixpoint solveLoop (fuel : nat) (done : nat -> bool) (k : nat)
    (challenge : gostring) (serverTimestamp : Time.Time)
    (requiredPrefix : gostring) (nonce : Z) : option (exec gostring) :=
  match fuel with
  | O => None
  | S fuel' =>
      if done k then Some (Fail ErrContext)
      else
        let data := challenge ++ Itoa nonce ++ Time.FormatRFC3339Nano serverTimestamp in
        let hash := Sha256.Sum256 data in
        let hashHex := Hex.EncodeToString hash in
        if HasPrefix hashHex requiredPrefix then Some (Val (Itoa nonce))
        else solveLoop fuel' done (S k) challenge serverTimestamp requiredPrefix
               (wrap64 (nonce + 1))
  end.

Definition solvePoW (c : WordOfWisdomClient) (fuel : nat) (done : nat -> bool)
    (challenge : gostring) (serverTimestamp : Time.Time) (difficulty : Z)
  : option (exec gostring) :=
  let nonce := 0 in
  match Repeat (lit "0") difficulty with
  | Val requiredPrefix =>
      solveLoop fuel done 0 challenge serverTimestamp requiredPrefix nonce
  | Fail e => Some (Fail e)
  | Panic p => Some (Panic p)
  end.

(** The line [sendResponse] writes. *)
Definition responseMessage (nonce : gostring) (timestamp : Time.Time) : gostring :=
  lit "Nonce:" ++ nonce ++ lit ";Timestamp:" ++ Time.FormatRFC3339Nano timestamp ++
  ["010"%char].

Definition sendResponse (conn : Conn) (nonce : gostring) (timestamp : Time.Time)
  : Conn * exec unit :=
  Write conn (responseMessage nonce timestamp).

End Client.

(* ================================================================== *)
(** * The notions of the specification *)
(* ================================================================== *)

Module Spec.

Import Strings Strconv.

(** The difficulty check, as [verifyPoW] (server.go) and [solvePoW]
    (client.go) both write it:
    [strings.HasPrefix(hashHex, strings.Repeat("0", difficulty))]. *)
Definition meetsDifficulty (hashHex : gostring) (difficulty : Z) : exec bool :=
  (requiredPrefix <- Repeat (lit "0") difficulty ;;
   Val (HasPrefix hashHex requiredPrefix))%exec.

(** [compute(challenge, nonce, timestamp)]: the lowercase hexadecimal
    SHA-256 digest of the three values concatenated. *)
Definition compute (challenge nonce : gostring) (timestamp : Time.Time) : gostring :=
  Hex.EncodeToString
    (Sha256.Sum256 (challenge ++ nonce ++ Time.FormatRFC3339Nano timestamp)).

(** The number of leading ['0'] characters of a string. *)
Fixpoint leadingZeros (s : gostring) : Z :=
  match s with
  | c :: s' => if Ascii.eqb c "0" then 1 + leadingZeros s' else 0
  | [] => 0
  end.

(** [s] starts with [d] literal ['0'] characters. *)
Definition startsWithZeros (s : gostring) (d : Z) : Prop :=
  exists rest, s = repeat "0"%char (Z.to_nat d) ++ rest.

(** A strictly framed solution line: exactly two fields separated by a
    semicolon, the first bearing the prefix [Nonce:], the second the
    prefix [Timestamp:]. *)
Definition strictSolutionFrame (line : gostring) : bool :=
  match Split line ";" with
  | [f0; f1] => HasPrefix f0 (lit "Nonce:") && HasPrefix f1 (lit "Timestamp:")
  | _ => false
  end.

(** The generic line sent for a rejected solution. *)
Definition invalidProofLine : gostring :=
  lit "Error:Invalid proof of work." ++ ["010"%char].

(** The candidate [nonce] qualifies against [requiredPrefix]. *)
Definition qualifies (challenge : gostring) (serverTimestamp : Time.Time)
    (requiredPrefix : gostring) (nonce : Z) : bool :=
  HasPrefix (compute challenge (Itoa nonce) serverTimestamp) requiredPrefix.

(** The calls of a session that evaluate the difficulty policy. *)
Definition isPolicyCall (c : Server.call) : bool :=
  match c with
  | Server.CallAdjustDifficulty _ _ => true
  | Server.CallVerifyPoW _ _ _ => false
  end.

(** [d] is what the policy of server [s0] gives under load [l]. *)
Definition issuedUnder (s0 : Server.WordOfWisdomServer) (l d : Z) : Prop :=
  d = Server.adjustDifficulty (Server.withLoad s0 l).

(** The calls a session can have made once it holds a difficulty: the one
    policy evaluation, then at most one verification with that same
    difficulty. *)
Definition orderlyCalls (s0 : Server.WordOfWisdomServer) (cs : list Server.call)
  : Prop :=
  exists l d, issuedUnder s0 l d /\
    (cs = [Server.CallAdjustDifficulty l d] \/
     exists lv r, cs = [Server.CallAdjustDifficulty l d; Server.CallVerifyPoW lv d r]).

(** What holds of a session of server [s0] between any two statements. *)
Definition sessionInvariant (s0 : Server.WordOfWisdomServer)
    (st : Server.WordOfWisdomServer * Server.session) : Prop :=
  Server.config (fst st) = Server.config s0 /\
  match Server.at_ (snd st) with
  | Server.Accepted | Server.Counted => Server.calls (snd st) = []
  | Server.Adjusted d
  | Server.ChallengeSent d _ _
  | Server.Received d _ _ _ _ =>
      exists l, issuedUnder s0 l d /\
                Server.calls (snd st) = [Server.CallAdjustDifficulty l d]
  | Server.Leaving | Server.Closed | Server.Crashed _ =>
      orderlyCalls s0 (Server.calls (snd st))
  end.

(** The [w] low decimal digits of [x], most significant first. *)
Fixpoint fixedDigits (w : nat) (x : Z) : gostring :=
  match w with
  | O => []
  | S w' => fixedDigits w' (x / 10) ++ [digitChar (x mod 10)]
  end.

(** No byte of [s] is the field separator. *)
Definition noSeparator (s : gostring) : bool :=
  forallb (fun c => negb (Ascii.eqb c ";")) s.

(** The characters of a challenge token. *)
Definition alphanumeric (s : gostring) : Prop :=
  Forall (fun c => In c Server.letters) s.

End Spec.

(* ================================================================== *)
(** * Notions about whole sessions *)
(* ================================================================== *)

Module SessionSpec.

(** The line [sendQuote] writes. *)
Definition quoteLine (quote : gostring) : gostring :=
  lit "Quote:" ++ quote ++ ["010"%char].

(** What the other sessions add to the load counter in a run. *)
Fixpoint netOthers (acts : list Server.action) : Z :=
  match acts with
  | [] => 0
  | Server.Own _ :: acts' => netOthers acts'
  | Server.OtherEnters :: acts' => 1 + netOthers acts'
  | Server.OtherLeaves :: acts' => netOthers acts' - 1
  end.

(** What a session itself holds of the load counter: one from its
    [incrementClientLoad] to its deferred [decrementClientLoad]. *)
Definition ownShare (p : Server.phase) : Z :=
  match p with
  | Server.Accepted | Server.Closed | Server.Crashed _ => 0
  | _ => 1
  end.

(** The statements a session still has to execute, at most. *)
Definition rank (p : Server.phase) : nat :=
  match p with
  | Server.Accepted => 6
  | Server.Counted => 5
  | Server.Adjusted _ => 4
  | Server.ChallengeSent _ _ _ => 3
  | Server.Received _ _ _ _ _ => 2
  | Server.Leaving => 1
  | Server.Closed | Server.Crashed _ => 0
  end.

(** The difficulty a session holds, if it holds one. *)
Definition heldDifficulty (p : Server.phase) : option Z :=
  match p with
  | Server.Adjusted d | Server.ChallengeSent d _ _ | Server.Received d _ _ _ _ => Some d
  | _ => None
  end.

(** What a session may have written to a connection that held [before]:
    nothing; the challenge; the challenge and the error line, after a
    verification that returned false; the challenge and a quote of the
    server, after a verification that returned true. *)
Definition transcript (quotes : list gostring) (before : gostring)
    (x : Server.session) : Prop :=
  Net.sent (Server.conn x) = before \/
  exists d ch ts,
    let challengeLine := Server.challengeMessage ch ts d in
    Net.sent (Server.conn x) = before ++ challengeLine \/
    (Net.sent (Server.conn x) = before ++ challengeLine ++ Spec.invalidProofLine /\
     exists l, In (Server.CallVerifyPoW l d (Val false)) (Server.calls x)) \/
    (exists q l,
       In q quotes /\
       In (Server.CallVerifyPoW l d (Val true)) (Server.calls x) /\
       Net.sent (Server.conn x) = before ++ challengeLine ++ quoteLine q).

(** What holds of what a session of server [s0] has written, between any
    two of its statements. *)
Definition written (s0 : Server.WordOfWisdomServer) (before : gostring)
    (st : Server.WordOfWisdomServer * Server.session) : Prop :=
  Server.quotes (fst st) = Server.quotes s0 /\
  match Server.at_ (snd st) with
  | Server.Accepted | Server.Counted | Server.Adjusted _ =>
      Net.sent (Server.conn (snd st)) = before
  | Server.ChallengeSent d ch ts | Server.Received d ch ts _ _ =>
      Net.sent (Server.conn (snd st)) = before ++ Server.challengeMessage ch ts d
  | Server.Leaving | Server.Closed | Server.Crashed _ =>
      transcript (Server.quotes s0) before (snd st)
  end.

(** A configuration under which every difficulty the policy gives is a
    count, and a server with quotes to send. *)
Definition sane (s : Server.WordOfWisdomServer) : Prop :=
  0 <= Config.MinDifficulty (Server.config s) /\
  1 <= Config.MaxDifficulty (Server.config s) <= maxInt /\
  Server.quotes s <> [].

(** What holds of a session of a sane server [s0] between any two of its
    statements. *)
Definition sound (s0 : Server.WordOfWisdomServer)
    (st : Server.WordOfWisdomServer * Server.session) : Prop :=
  Server.config (fst st) = Server.config s0 /\
  Server.quotes (fst st) = Server.quotes s0 /\
  (forall d, heldDifficulty (Server.at_ (snd st)) = Some d -> 0 <= d) /\
  (forall p, Server.at_ (snd st) <> Server.Crashed p).

End SessionSpec.

(* ================================================================== *)
(** * [cmd/client/client.go]: the reply and [Run] *)
(* ================================================================== *)

Module ClientRun.

Import Strings Strconv Net Config.

(** What [receiveServerResponse] writes to the log. *)
Inductive logged : Type :=
| ReceivedQuote (quote : gostring)          (* Info "Received quote" *)
| ReceivedError (message : gostring)        (* Warn "Received error from server" *)
| UnknownResponse (response : gostring).    (* Warn "Unknown server response" *)

(** [receiveServerResponse]: the error of the read, or [nil] with one
    entry logged. *)
Definition receiveServerResponse (conn : Conn) : exec logged :=
  (data <- Read conn 4096 ;;
   let response := TrimSpace data in
   if HasPrefix response (lit "Quote:") then
     Val (ReceivedQuote (TrimPrefix response (lit "Quote:")))
   else if HasPrefix response (lit "Error:") then
     Val (ReceivedError (TrimPrefix response (lit "Error:")))
   else
     Val (UnknownResponse response))%exec.

(** The server as [Run] meets it: whether [net.Dial] succeeds, what the
    first read returns, whether writes succeed, and what the read that
    follows the client's writes returns, given what was written. *)
Record Peer : Type := mkPeer {
  dials : bool;
  greeting : exec gostring;
  accepts : bool;
  reply : gostring -> exec gostring
}.

Inductive runError : Type :=
| FailedToConnect               (* "failed to connect to server: %w" *)
| Failed (e : error).           (* the error of a step, returned as it is *)

(** How a call of [Run] ends: the error it returns ([None] for [nil]),
    what it wrote to the connection, what it logged of the reply. *)
Record report : Type := mkReport {
  err : option runError;
  wrote : gostring;
  log : option logged
}.

Inductive ran : Type :=
| Returned (r : report)
| Panicked (p : panic).

(** [Run]; [now] is the reading of [time.Now().UTC()] taken before
    [sendResponse]; [None]: [solvePoW] is still running after [fuel]
    iterations. *)
Definition Run (c : Client.WordOfWisdomClient) (fuel : nat) (done : nat -> bool)
    (now : Time.Time) (p : Peer) : option ran :=
  if negb (dials p) then
    Some (Returned (mkReport (Some FailedToConnect) [] None))
  else
    let conn := mkConn [] (accepts p) (greeting p) in
    match Client.receiveChallenge conn with
    | Fail e => Some (Returned (mkReport (Some (Failed e)) [] None))
    | Panic q => Some (Panicked q)
    | Val (challenge, serverTimestamp, difficulty) =>
        match Client.solvePoW c fuel done challenge serverTimestamp difficulty with
        | None => None
        | Some (Panic q) => Some (Panicked q)
        | Some (Fail e) => Some (Returned (mkReport (Some (Failed e)) [] None))
        | Some (Val nonce) =>
            let clientTimestamp := now in
            match Client.sendResponse conn nonce clientTimestamp with
            | (conn', Val _) =>
                match receiveServerResponse
                        (mkConn (sent conn') (writable conn') (reply p (sent conn'))) with
                | Val entry => Some (Returned (mkReport None (sent conn') (Some entry)))
                | Fail e => Some (Returned (mkReport (Some (Failed e)) (sent conn') None))
                | Panic q => Some (Panicked q)
                end
            | (conn', Fail e) =>
                Some (Returned (mkReport (Some (Failed e)) (sent conn') None))
            | (_, Panic q) => Some (Panicked q)
            end
        end
    end.

End ClientRun.

(* ================================================================== *)
(** * The client against the server *)
(* ================================================================== *)

Module Exchange.

Import Net.

(** The session [handleConnection] runs for one client, as that client's
    peer: the first read returns the challenge line; the read after the
    client's writes returns what the session wrote after the challenge
    line, or fails when the session closed without writing more. The
    session reads what the client wrote. *)
Definition serverPeer (inputs : nat -> Server.input) (s : Server.WordOfWisdomServer)
  : ClientRun.Peer :=
  let challengeLine :=
    Server.challengeMessage (Server.generateChallenge (Server.intn (inputs 2%nat)))
      (Server.now (inputs 2%nat))
      (Server.adjustDifficulty (Server.incrementClientLoad s)) in
  {| ClientRun.dials := true;
     ClientRun.greeting := Val challengeLine;
     ClientRun.accepts := true;
     ClientRun.reply := fun written =>
       let final := snd (Server.handleConnection inputs s (mkConn [] true (Val written))) in
       match skipn (length challengeLine) (sent (Server.conn final)) with
       | [] => Fail ErrIO
       | bytes => Val bytes
       end |}.

(** The last byte of [c] ends the encoding of some white space. *)
Definition endsSpace (c : ascii) : bool :=
  existsb (fun e => match rev e with
                    | l :: _ => Ascii.eqb l c
                    | [] => true
                    end) Strings.spaces.

(** [q] is not empty and does not end in white space. *)
Definition plainLast (q : gostring) : bool :=
  match rev q with
  | c :: _ => negb (endsSpace c)
  | [] => false
  end.

(** [q] is recognised by the client when sent as a quote: it has a plain
    end and its line fits the buffer the client reads. *)
Definition recognisable (q : gostring) : bool :=
  plainLast q && (length (SessionSpec.quoteLine q) <=? 4096)%nat.

End Exchange.

(* ================================================================== *)
(** * Sample values *)
(* ================================================================== *)

Module Sample.

Import Config.

(** The settings of the repository's [config.yaml]. *)
Definition serverConfig : ServerConfig :=
  {| Host := lit "0.0.0.0";
     Port := 9999;
     MaxConnections := 100;
     ConnectionTimeout := 10 * Time.Second;
     TimeWindow := 5 * Time.Minute;
     MinDifficulty := 4;
     MaxDifficulty := 6 |}.

Definition clientConfig : ClientConfig :=
  {| ServerAddress := lit "localhost:9999";
     ClientConnectionTimeout := 10 * Time.Second;
     MaxNonce := 100000000 |}.

Definition server : Server.WordOfWisdomServer := Server.NewServer serverConfig.

Definition client : Client.WordOfWisdomClient := Client.NewClient clientConfig.

(** A client whose configured nonce bound is 3. *)
Definition boundedClient : Client.WordOfWisdomClient :=
  Client.NewClient
    {| ServerAddress := lit "localhost:9999";
       ClientConnectionTimeout := 10 * Time.Second;
       MaxNonce := 3 |}.

Definition token : gostring := lit "abc".

(** 2024-02-29T07:04:05.12Z *)
Definition issuedAt : Time.Time := Time.mkTime 2024 2 29 7 4 5 120000000 0.

(** 2024-02-29T07:04:06Z *)
Definition solvedAt : Time.Time := Time.mkTime 2024 2 29 7 4 6 0 0.

(** 2024-02-29T07:04:07Z: one second after [solvedAt]. *)
Definition verifiedAt : Time.Time := Time.mkTime 2024 2 29 7 4 7 0 0.

(** 2024-02-29T07:09:07Z: five minutes and one second after [solvedAt]. *)
Definition verifiedLate : Time.Time := Time.mkTime 2024 2 29 7 9 7 0 0.

(** 9999-12-31T23:59:59.999999999Z *)
Definition farFuture : Time.Time := Time.mkTime 9999 12 31 23 59 59 999999999 0.

(** A server that asks for one leading zero at low load. *)
Definition easyServer : Server.WordOfWisdomServer :=
  Server.NewServer
    {| Host := lit "0.0.0.0";
       Port := 9999;
       MaxConnections := 100;
       ConnectionTimeout := 10 * Time.Second;
       TimeWindow := 5 * Time.Minute;
       MinDifficulty := 1;
       MaxDifficulty := 3 |}.

Definition neverDone : nat -> bool := fun _ => false.

Definition input (t : Time.Time) : Server.input :=
  {| Server.now := t; Server.intn := fun k => k |}.

Definition openConn (incoming : exec gostring) : Net.Conn :=
  {| Net.sent := []; Net.writable := true; Net.incoming := incoming |}.

End Sample.

(* ================================================================== *)
(** * Properties *)
(* ================================================================== *)

Import Strings Strconv Net Config Spec.

(** ** The digest on the test vectors of FIPS 180-4 *)

Example Sum256_abc :
  Hex.EncodeToString (Sha256.Sum256 (lit "abc")) =
  lit "ba7816bf8f01cfea414140de5dae2223b00361a396177a9cb410ff61f20015ad".
Proof. vm_compute. reflexivity. Qed.

Example Sum256_empty :
  Hex.EncodeToString (Sha256.Sum256 []) =
  lit "e3b0c44298fc1c149afbf4c8996fb92427ae41e4649b934ca495991b7852b855".
Proof. vm_compute. reflexivity. Qed.

Example Sum256_two_blocks :
  Hex.EncodeToString
    (Sha256.Sum256 (lit "abcdbcdecdefdefgefghfghighijhijkijkljklmklmnlmnomnopnopq")) =
  lit "248d6a61d20638b8e5c026930c3e6039a33ce45964ff2167f6ecedd419db06c1".
Proof. vm_compute. reflexivity. Qed.

(** ** Prefixes and leading zeros *)

Section Prefixes.

Lemma HasPrefix_app (p r : gostring) : HasPrefix (p ++ r) p = true.
Proof.
  induction p as [|c p IH]; simpl; [reflexivity|].
  rewrite Ascii.eqb_refl. exact IH.
Qed.

Lemma HasPrefix_split (s p : gostring) :
  HasPrefix s p = true -> s = p ++ skipn (length p) s.
Proof.
  revert s. induction p as [|c p IH]; intros s H; simpl in *.
  - reflexivity.
  - destruct s as [|c' s]; [discriminate|].
    apply andb_true_iff in H. destruct H as [Hc Hp].
    apply Ascii.eqb_eq in Hc. subst c'. simpl. f_equal. now apply IH.
Qed.

Lemma HasPrefix_iff (s p : gostring) :
  HasPrefix s p = true <-> exists r, s = p ++ r.
Proof.
  split.
  - intros H. eexists. now apply HasPrefix_split.
  - intros [r ->]. apply HasPrefix_app.
Qed.

Lemma Repeat_zero (d : Z) :
  0 <= d -> Repeat (lit "0") d = Val (repeat "0"%char (Z.to_nat d)).
Proof.
  intros Hd. unfold Repeat.
  destruct (Z.ltb_spec d 0) as [Hlt|_]; [lia|].
  f_equal. induction (Z.to_nat d) as [|n IH]; [reflexivity|].
  cbn [repeat concat]. rewrite IH. reflexivity.
Qed.

Lemma Repeat_negative (s : gostring) (d : Z) :
  d < 0 -> Repeat s d = Panic NegativeRepeatCount.
Proof.
  intros Hd. unfold Repeat. destruct (Z.ltb_spec d 0); [reflexivity | lia].
Qed.

Lemma leadingZeros_nonneg (s : gostring) : 0 <= leadingZeros s.
Proof.
  induction s as [|c s IH]; cbn [leadingZeros]; [lia|].
  destruct (Ascii.eqb c "0"); lia.
Qed.

Lemma HasPrefix_zeros (s : gostring) (n : nat) :
  HasPrefix s (repeat "0"%char n) = (Z.of_nat n <=? leadingZeros s).
Proof.
  revert s. induction n as [|n IH]; intros s.
  - simpl. pose proof (leadingZeros_nonneg s).
    symmetry. apply Z.leb_le. lia.
  - destruct s as [|c s].
    + reflexivity.
    + cbn [repeat HasPrefix leadingZeros].
      destruct (Ascii.eqb c "0") eqn:Hc; cbn [andb].
      * rewrite IH. pose proof (leadingZeros_nonneg s).
        destruct (Z.leb_spec (Z.of_nat n) (leadingZeros s));
          symmetry; [apply Z.leb_le | apply Z.leb_gt]; lia.
      * symmetry. apply Z.leb_gt. lia.
Qed.

Lemma meetsDifficulty_leadingZeros (hashHex : gostring) (d : Z) :
  0 <= d -> meetsDifficulty hashHex d = Val (d <=? leadingZeros hashHex).
Proof.
  intros Hd. unfold meetsDifficulty. rewrite (Repeat_zero d Hd). simpl.
  rewrite HasPrefix_zeros. now rewrite Z2Nat.id.
Qed.

Lemma startsWithZeros_iff (hashHex : gostring) (d : Z) :
  0 <= d -> (startsWithZeros hashHex d <-> d <= leadingZeros hashHex).
Proof.
  intros Hd. unfold startsWithZeros.
  rewrite <- HasPrefix_iff, HasPrefix_zeros, Z2Nat.id by assumption.
  apply Z.leb_le.
Qed.

End Prefixes.

(** ** The difficulty check *)



(** ** The difficulty policy *)

(** C4. The difficulty is a three-tier step function of the load counter:
    above 50 it is [MaxDifficulty], above 20 and up to 50 it is
    [MaxDifficulty - 1] (Go's [int] subtraction, which is the integer
    difference for every [MaxDifficulty] above the least [int]), and up
    to 20 it is [MinDifficulty]; the boundary loads 50 and 20 fall in the
    lower tier; and it depends on nothing but the load and the
    configuration. *)
Theorem adjustDifficulty_tiers (s : Server.WordOfWisdomServer) :
  let cfg := Server.config s in
  let load := Server.clientLoad s in
  (50 < load -> Server.adjustDifficulty s = MaxDifficulty cfg) /\
  (20 < load <= 50 ->
     Server.adjustDifficulty s = wrap64 (MaxDifficulty cfg - 1) /\
     (minInt < MaxDifficulty cfg <= maxInt ->
        Server.adjustDifficulty s = MaxDifficulty cfg - 1)) /\
  (load <= 20 -> Server.adjustDifficulty s = MinDifficulty cfg) /\
  (load = 50 -> Server.adjustDifficulty s = wrap64 (MaxDifficulty cfg - 1)) /\
  (load = 20 -> Server.adjustDifficulty s = MinDifficulty cfg) /\
  (forall s', Server.config s' = cfg -> Server.clientLoad s' = load ->
     Server.adjustDifficulty s' = Server.adjustDifficulty s).
Proof.
  intros cfg load. subst cfg load.
  unfold Server.adjustDifficulty, Server.maxDifficultyClientCount,
    Server.minDifficultyClientCount.
  repeat split; intros.
  - destruct (Z.gtb_spec (Server.clientLoad s) 50); [reflexivity | lia].
  - destruct (Z.gtb_spec (Server.clientLoad s) 50); [lia|].
    destruct (Z.gtb_spec (Server.clientLoad s) 20); [reflexivity | lia].
  - destruct (Z.gtb_spec (Server.clientLoad s) 50); [lia|].
    destruct (Z.gtb_spec (Server.clientLoad s) 20); [| lia].
    unfold wrap64, minInt, maxInt in *. lia.
  - destruct (Z.gtb_spec (Server.clientLoad s) 50); [lia|].
    destruct (Z.gtb_spec (Server.clientLoad s) 20); [lia | reflexivity].
  - destruct (Z.gtb_spec (Server.clientLoad s) 50); [lia|].
    destruct (Z.gtb_spec (Server.clientLoad s) 20); [reflexivity | lia].
  - destruct (Z.gtb_spec (Server.clientLoad s) 50); [lia|].
    destruct (Z.gtb_spec (Server.clientLoad s) 20); [lia | reflexivity].
  - match goal with H1 : Server.config _ = _, H2 : Server.clientLoad _ = _ |- _ =>
      rewrite H1, H2 end. reflexivity.
Qed.

(** ** Verification *)

Section Verification.

Lemma verifyPoW_unfold (s : Server.WordOfWisdomServer) (now : Time.Time)
    (challenge nonce : gostring) (clientTimestamp serverTimestamp : Time.Time)
    (difficulty : Z) :
  Server.verifyPoW s now challenge nonce clientTimestamp serverTimestamp difficulty =
  if Time.Since now clientTimestamp >? TimeWindow (Server.config s) then Val false
  else meetsDifficulty (compute challenge nonce serverTimestamp) difficulty.
Proof. reflexivity. Qed.

(** [time.Since] is the exact difference of the two instants whenever
    that difference is a [Duration]. *)
Lemma Since_exact (now t : Time.Time) :
  Time.minDuration <= Time.instant now - Time.instant t <= Time.maxDuration ->
  Time.Since now t = Time.instant now - Time.instant t.
Proof.
  intros H. unfold Time.Since, Time.Sub.
  destruct (Z.ltb_spec (Time.instant now - Time.instant t) Time.minDuration); [lia|].
  destruct (Z.ltb_spec Time.maxDuration (Time.instant now - Time.instant t)); [lia|].
  reflexivity.
Qed.

(** Below the largest duration, comparing [time.Since] with a window is
    comparing the exact age with it. *)
Lemma Since_le_window (now t : Time.Time) (window : Time.Duration) :
  Time.minDuration <= window < Time.maxDuration ->
  (Time.Since now t <= window <-> Time.instant now - Time.instant t <= window).
Proof.
  intros H. unfold Time.Since, Time.Sub.
  destruct (Z.ltb_spec (Time.instant now - Time.instant t) Time.minDuration);
    [lia|].
  destruct (Z.ltb_spec Time.maxDuration (Time.instant now - Time.instant t)); lia.
Qed.

Lemma Since_future (now t : Time.Time) :
  Time.instant now <= Time.instant t -> Time.Since now t <= 0.
Proof.
  intros H. unfold Time.Since, Time.Sub, Time.minDuration, Time.maxDuration,
    minInt, maxInt.
  destruct (Z.ltb_spec (Time.instant now - Time.instant t) (- 2 ^ 63)); [lia|].
  destruct (Z.ltb_spec (2 ^ 63 - 1) (Time.instant now - Time.instant t)); lia.
Qed.

End Verification.



(** With a window of five minutes: a solution one second old with a
    qualifying digest is accepted; a solution five minutes and one second
    old is rejected, whether its digest qualifies or not; a fresh solution
    whose digest does not qualify is rejected. *)
Example verifyPoW_fresh_and_qualifying :
  Server.verifyPoW Sample.server Sample.verifiedAt Sample.token (lit "6")
    Sample.solvedAt Sample.issuedAt 1 = Val true.
Proof. vm_compute. reflexivity. Qed.

Example verifyPoW_expired :
  Server.verifyPoW Sample.server Sample.verifiedLate Sample.token (lit "6")
    Sample.solvedAt Sample.issuedAt 1 = Val false /\
  Server.verifyPoW Sample.server Sample.verifiedLate Sample.token (lit "5")
    Sample.solvedAt Sample.issuedAt 1 = Val false.
Proof. vm_compute. split; reflexivity. Qed.

Example verifyPoW_fresh_not_qualifying :
  Server.verifyPoW Sample.server Sample.verifiedAt Sample.token (lit "5")
    Sample.solvedAt Sample.issuedAt 1 = Val false.
Proof. vm_compute. reflexivity. Qed.

(** C10. With a window that is not negative, a solution whose submitted
    timestamp is at or after the verification time passes the freshness
    check however far in the future it lies: the test of [verifyPoW] is
    false and the verdict is that of the digest check alone. *)
Theorem future_timestamp_passes_freshness (s : Server.WordOfWisdomServer)
    (now : Time.Time) (challenge nonce : gostring)
    (clientTimestamp serverTimestamp : Time.Time) (difficulty : Z) :
  0 <= TimeWindow (Server.config s) ->
  Time.instant now <= Time.instant clientTimestamp ->
  (Time.Since now clientTimestamp >? TimeWindow (Server.config s)) = false /\
  Server.verifyPoW s now challenge nonce clientTimestamp serverTimestamp difficulty =
  meetsDifficulty (compute challenge nonce serverTimestamp) difficulty.
Proof.
  intros Hw Hfuture. pose proof (Since_future _ _ Hfuture) as Hs.
  assert (Hgt : (Time.Since now clientTimestamp >? TimeWindow (Server.config s)) = false).
  { destruct (Z.gtb_spec (Time.Since now clientTimestamp)
                (TimeWindow (Server.config s))); [lia | reflexivity]. }
  split; [exact Hgt|].
  rewrite verifyPoW_unfold, Hgt. reflexivity.
Qed.

Lemma future_timestamp_passes_freshness_witness :
  Server.verifyPoW Sample.server Sample.verifiedAt Sample.token (lit "6")
    Sample.farFuture Sample.issuedAt 1 =
  meetsDifficulty (compute Sample.token (lit "6") Sample.issuedAt) 1.
Proof.
  refine (proj2 (future_timestamp_passes_freshness Sample.server Sample.verifiedAt
                   Sample.token (lit "6") Sample.farFuture Sample.issuedAt 1 _ _)).
  - vm_compute. discriminate.
  - vm_compute. discriminate.
Defined.

(** A timestamp some eight thousand years ahead is accepted. *)
Example verifyPoW_far_future :
  Server.verifyPoW Sample.server Sample.verifiedAt Sample.token (lit "6")
    Sample.farFuture Sample.issuedAt 1 = Val true.
Proof. vm_compute. reflexivity. Qed.

(** With a negative window the check does reject a timestamp of the
    verification instant itself. *)
Example negative_window_rejects_now :
  Server.verifyPoW
    (Server.NewServer
       {| Host := []; Port := 0; MaxConnections := 1; ConnectionTimeout := 0;
          TimeWindow := -1; MinDifficulty := 0; MaxDifficulty := 0 |})
    Sample.verifiedAt Sample.token (lit "6") Sample.verifiedAt Sample.issuedAt 0
  = Val false.
Proof. vm_compute. reflexivity. Qed.

(** ** The reply to a rejected solution *)

Lemma rejected_step (i : Server.input) (s : Server.WordOfWisdomServer)
    (x : Server.session) (d : Z) (ch : gostring) (sts : Time.Time)
    (nonce : gostring) (cts : Time.Time) :
  Server.at_ x = Server.Received d ch sts nonce cts ->
  Server.verifyPoW s (Server.now i) ch nonce cts sts d = Val false ->
  writable (Server.conn x) = true ->
  sent (Server.conn (snd (Server.step i s x))) =
  sent (Server.conn x) ++ invalidProofLine.
Proof.
  intros Hat Hv Hw. unfold Server.step. rewrite Hat, Hv. simpl.
  unfold Server.sendError, Write. rewrite Hw. reflexivity.
Qed.

(** C7. Take two sessions about to verify a solution, the first failing
    the freshness check only (its digest qualifies), the second failing
    the digest check only (its timestamp is fresh). The bytes the server
    writes to the two connections in reply are the same: the one line
    [Error:Invalid proof of work.]. *)
Theorem rejection_reply_is_generic
    (i1 i2 : Server.input) (s1 s2 : Server.WordOfWisdomServer)
    (x1 x2 : Server.session)
    (d1 d2 : Z) (ch1 ch2 nonce1 nonce2 : gostring)
    (sts1 sts2 cts1 cts2 : Time.Time) :
  Server.at_ x1 = Server.Received d1 ch1 sts1 nonce1 cts1 ->
  Server.at_ x2 = Server.Received d2 ch2 sts2 nonce2 cts2 ->
  (* the first is expired, its digest meets the difficulty *)
  Time.Since (Server.now i1) cts1 > TimeWindow (Server.config s1) ->
  meetsDifficulty (compute ch1 nonce1 sts1) d1 = Val true ->
  (* the second is fresh, its digest does not meet the difficulty *)
  Time.Since (Server.now i2) cts2 <= TimeWindow (Server.config s2) ->
  meetsDifficulty (compute ch2 nonce2 sts2) d2 = Val false ->
  writable (Server.conn x1) = true ->
  writable (Server.conn x2) = true ->
  exists reply : gostring,
    sent (Server.conn (snd (Server.step i1 s1 x1))) = sent (Server.conn x1) ++ reply /\
    sent (Server.conn (snd (Server.step i2 s2 x2))) = sent (Server.conn x2) ++ reply /\
    reply = invalidProofLine.
Proof.
  intros Hat1 Hat2 Hold1 Hdig1 Hfresh2 Hdig2 Hw1 Hw2.
  exists invalidProofLine. split; [|split]; [| |reflexivity].
  - apply (rejected_step i1 s1 x1 d1 ch1 sts1 nonce1 cts1); try assumption.
    rewrite verifyPoW_unfold.
    destruct (Z.gtb_spec (Time.Since (Server.now i1) cts1)
                (TimeWindow (Server.config s1))); [reflexivity | lia].
  - apply (rejected_step i2 s2 x2 d2 ch2 sts2 nonce2 cts2); try assumption.
    rewrite verifyPoW_unfold.
    destruct (Z.gtb_spec (Time.Since (Server.now i2) cts2)
                (TimeWindow (Server.config s2))); [lia | exact Hdig2].
Qed.

Lemma rejection_reply_is_generic_witness :
  exists reply : gostring,
    sent (Server.conn (snd (Server.step (Sample.input Sample.verifiedLate) Sample.server
            (Server.mkSession
               (Server.Received 1 Sample.token Sample.issuedAt (lit "6") Sample.solvedAt)
               (Sample.openConn (Fail ErrIO)) [])))) = [] ++ reply /\
    sent (Server.conn (snd (Server.step (Sample.input Sample.verifiedAt) Sample.server
            (Server.mkSession
               (Server.Received 1 Sample.token Sample.issuedAt (lit "5") Sample.solvedAt)
               (Sample.openConn (Fail ErrIO)) [])))) = [] ++ reply /\
    reply = invalidProofLine.
Proof.
  refine (rejection_reply_is_generic
            (Sample.input Sample.verifiedLate) (Sample.input Sample.verifiedAt)
            Sample.server Sample.server
            (Server.mkSession
               (Server.Received 1 Sample.token Sample.issuedAt (lit "6") Sample.solvedAt)
               (Sample.openConn (Fail ErrIO)) [])
            (Server.mkSession
               (Server.Received 1 Sample.token Sample.issuedAt (lit "5") Sample.solvedAt)
               (Sample.openConn (Fail ErrIO)) [])
            1 1 Sample.token Sample.token (lit "6") (lit "5")
            Sample.issuedAt Sample.issuedAt Sample.solvedAt Sample.solvedAt
            eq_refl eq_refl _ _ _ _ eq_refl eq_refl).
  - vm_compute. reflexivity.
  - vm_compute. reflexivity.
  - vm_compute. discriminate.
  - vm_compute. reflexivity.
Defined.

(** ** The solver *)

Section Solver.

Variable c : Client.WordOfWisdomClient.
Variable done : nat -> bool.
Variable challenge : gostring.
Variable serverTimestamp : Time.Time.

Let qualifies := Spec.qualifies challenge serverTimestamp.

Lemma wrap64_succ (n : Z) : 0 <= n < maxInt -> wrap64 (n + 1) = n + 1.
Proof. unfold wrap64, maxInt. intros H. lia. Qed.

(** From candidate [start] at iteration [k], with the candidates below
    [start + gap] failing, none of the polls up to there seeing the
    context done, and more fuel than [gap], the loop returns the first
    candidate that qualifies, [start + gap]. *)
Lemma solveLoop_reaches (requiredPrefix : gostring) (gap : nat) :
  forall (fuel k : nat) (start : Z),
    0 <= start ->
    start + Z.of_nat gap <= maxInt ->
    (forall m, start <= m < start + Z.of_nat gap -> qualifies requiredPrefix m = false) ->
    qualifies requiredPrefix (start + Z.of_nat gap) = true ->
    (forall j, (k <= j <= k + gap)%nat -> done j = false) ->
    (gap < fuel)%nat ->
    Client.solveLoop fuel done k challenge serverTimestamp requiredPrefix start =
    Some (Val (Itoa (start + Z.of_nat gap))).
Proof.
  induction gap as [|gap IH]; intros fuel k start Hstart Hmax Hbelow Hat Hdone Hfuel.
  - destruct fuel as [|fuel]; [lia|]. cbn [Client.solveLoop].
    rewrite (Hdone k) by lia.
    replace (start + Z.of_nat 0) with start in * by lia.
    unfold qualifies, Spec.qualifies, compute in Hat. rewrite Hat. reflexivity.
  - destruct fuel as [|fuel]; [lia|]. cbn [Client.solveLoop].
    rewrite (Hdone k) by lia.
    assert (Hs : qualifies requiredPrefix start = false) by (apply Hbelow; lia).
    unfold qualifies, Spec.qualifies, compute in Hs. rewrite Hs.
    rewrite wrap64_succ by lia.
    replace (start + Z.of_nat (S gap)) with (start + 1 + Z.of_nat gap) in * by lia.
    apply IH; try lia.
    + intros m Hm. apply Hbelow. lia.
    + exact Hat.
    + intros j Hj. apply Hdone. lia.
Qed.

(** While the candidates fail and the context is not done, the loop is
    still running when the fuel is spent. *)
Lemma solveLoop_running (requiredPrefix : gostring) :
  forall (fuel k : nat) (start : Z),
    0 <= start ->
    start + Z.of_nat fuel <= maxInt ->
    (forall m, start <= m < start + Z.of_nat fuel -> qualifies requiredPrefix m = false) ->
    (forall j, (k <= j < k + fuel)%nat -> done j = false) ->
    Client.solveLoop fuel done k challenge serverTimestamp requiredPrefix start = None.
Proof.
  induction fuel as [|fuel IH]; intros k start Hstart Hmax Hbelow Hdone.
  - reflexivity.
  - cbn [Client.solveLoop]. rewrite (Hdone k) by lia.
    assert (Hs : qualifies requiredPrefix start = false) by (apply Hbelow; lia).
    unfold qualifies, Spec.qualifies, compute in Hs. rewrite Hs.
    rewrite wrap64_succ by lia.
    apply IH; try lia.
    + intros m Hm. apply Hbelow. lia.
    + intros j Hj. apply Hdone. lia.
Qed.

End Solver.

(** C6. Let [n], a non-negative [int], be the smallest nonce whose digest
    meets the difficulty, and let no poll of the context up to iteration
    [n] find it done. Then [solvePoW] tries the candidates 0, 1, 2, ... in
    turn: it is still running after [n] iterations or fewer, and with any
    more it returns the decimal string of [n]. This holds for every client
    [c], whatever its configured [MaxNonce]. *)
Theorem solvePoW_returns_least_nonce (c : Client.WordOfWisdomClient)
    (done : nat -> bool) (challenge : gostring) (serverTimestamp : Time.Time)
    (difficulty n : Z) :
  0 <= difficulty ->
  0 <= n <= maxInt ->
  meetsDifficulty (compute challenge (Itoa n) serverTimestamp) difficulty = Val true ->
  (forall m, 0 <= m < n ->
     meetsDifficulty (compute challenge (Itoa m) serverTimestamp) difficulty = Val false) ->
  (forall j, (j <= Z.to_nat n)%nat -> done j = false) ->
  (forall fuel, (Z.to_nat n < fuel)%nat ->
     Client.solvePoW c fuel done challenge serverTimestamp difficulty =
     Some (Val (Itoa n))) /\
  (forall fuel, (fuel <= Z.to_nat n)%nat ->
     Client.solvePoW c fuel done challenge serverTimestamp difficulty = None).
Proof.
  intros Hd Hn Hat Hbelow Hdone.
  unfold meetsDifficulty in Hat, Hbelow. unfold Client.solvePoW.
  rewrite (Repeat_zero difficulty Hd) in *. cbn [bind] in Hat, Hbelow.
  set (rp := repeat "0"%char (Z.to_nat difficulty)) in *.
  split; intros fuel Hfuel.
  - pose proof (solveLoop_reaches done challenge serverTimestamp rp (Z.to_nat n)
                  fuel 0%nat 0) as Hloop.
    replace (0 + Z.of_nat (Z.to_nat n)) with n in Hloop by lia.
    apply Hloop; try lia.
    + intros m Hm. unfold Spec.qualifies.
      specialize (Hbelow m ltac:(lia)). now injection Hbelow.
    + unfold Spec.qualifies. now injection Hat.
    + intros j Hj. apply Hdone. lia.
  - apply solveLoop_running; try lia.
    + intros m Hm. unfold Spec.qualifies.
      specialize (Hbelow m ltac:(lia)). now injection Hbelow.
    + intros j Hj. apply Hdone. lia.
Qed.

Lemma solvePoW_returns_least_nonce_witness :
  MaxNonce (Client.config Sample.boundedClient) < 6 /\
  Client.solvePoW Sample.boundedClient 7 Sample.neverDone Sample.token
    Sample.issuedAt 1 = Some (Val (lit "6")).
Proof.
  split; [vm_compute; reflexivity|].
  refine (proj1 (solvePoW_returns_least_nonce Sample.boundedClient Sample.neverDone
                   Sample.token Sample.issuedAt 1 6 _ _ _ _ _) 7%nat _).
  - lia.
  - vm_compute. split; discriminate.
  - vm_compute. reflexivity.
  - intros m Hm.
    assert (Hcases : m = 0 \/ m = 1 \/ m = 2 \/ m = 3 \/ m = 4 \/ m = 5) by lia.
    destruct Hcases as [->|[->|[->|[->|[->| ->]]]]]; vm_compute; reflexivity.
  - intros j _. reflexivity.
  - vm_compute. lia.
Defined.

(** ** A negative difficulty on the client *)

(** C9. The challenge line the server writes for difficulty [-1] is
    decoded by the client without error, and [solvePoW] then panics on the
    negative repeat count, for any context and any amount of fuel, instead
    of returning an error. *)
Theorem negative_difficulty_panics_solver :
  exists message : gostring,
    message = Server.challengeMessage Sample.token Sample.issuedAt (-1) /\
    Client.receiveChallenge (Sample.openConn (Val message)) =
      Val (Sample.token, Sample.issuedAt, -1) /\
    forall (c : Client.WordOfWisdomClient) (fuel : nat) (done : nat -> bool),
      Client.solvePoW c fuel done Sample.token Sample.issuedAt (-1) =
      Some (Panic NegativeRepeatCount).
Proof.
  eexists. split; [reflexivity|]. split.
  - vm_compute. reflexivity.
  - intros c fuel done. reflexivity.
Qed.

(** A server whose [MaxDifficulty] is 0 issues difficulty [-1] under a
    load of 21. *)
Example adjustDifficulty_negative :
  Server.adjustDifficulty
    (Server.withLoad
       (Server.NewServer
          {| Host := []; Port := 0; MaxConnections := 100; ConnectionTimeout := 0;
             TimeWindow := 0; MinDifficulty := 0; MaxDifficulty := 0 |}) 21) = -1.
Proof. vm_compute. reflexivity. Qed.

(** ** The difficulty of a session *)

Section Session.

Variable s0 : Server.WordOfWisdomServer.

Lemma adjustDifficulty_config (s : Server.WordOfWisdomServer) :
  Server.config s = Server.config s0 ->
  issuedUnder s0 (Server.clientLoad s) (Server.adjustDifficulty s).
Proof.
  intros H. unfold issuedUnder, Server.adjustDifficulty. simpl. now rewrite H.
Qed.

Lemma step_preserves (i : Server.input) (s : Server.WordOfWisdomServer)
    (x : Server.session) :
  sessionInvariant s0 (s, x) -> sessionInvariant s0 (Server.step i s x).
Proof.
  unfold sessionInvariant. cbn [fst snd]. intros [Hcfg Hcalls].
  unfold Server.step.
  destruct (Server.at_ x) as [| |d|d ch ts|d ch ts nonce cts| | |p] eqn:Hat.
  - cbn. split; assumption.
  - cbn. split; [assumption|]. exists (Server.clientLoad s).
    split; [now apply adjustDifficulty_config|]. now rewrite Hcalls.
  - destruct Hcalls as [l [Hl Hc]].
    destruct (Server.sendChallenge _ _ _ _) as [c' [u|e|p]]; cbn;
      (split; [assumption|]); try (exists l; split; assumption);
      exists l, d; (split; [assumption|]); left; assumption.
  - destruct Hcalls as [l [Hl Hc]].
    destruct (Server.receiveResponse _) as [[nonce cts]|e|p]; cbn;
      (split; [assumption|]); try (exists l; split; assumption);
      exists l, d; (split; [assumption|]); left; assumption.
  - destruct Hcalls as [l [Hl Hc]].
    assert (Hdone : orderlyCalls s0
              (Server.calls x ++
               [Server.CallVerifyPoW (Server.clientLoad s) d
                  (Server.verifyPoW s (Server.now i) ch nonce cts ts d)])).
    { exists l, d. split; [assumption|]. right.
      exists (Server.clientLoad s),
        (Server.verifyPoW s (Server.now i) ch nonce cts ts d).
      now rewrite Hc. }
    destruct (Server.verifyPoW s (Server.now i) ch nonce cts ts d) as [[|]|e|p];
      try (cbn; split; [assumption | exact Hdone]).
    destruct (Server.getRandomQuote s _) as [q|e|p];
      cbn; (split; [assumption | exact Hdone]).
  - cbn. split; assumption.
  - cbn. rewrite Hat. split; assumption.
  - cbn. rewrite Hat. split; assumption.
Qed.

Lemma act_preserves (a : Server.action)
    (st : Server.WordOfWisdomServer * Server.session) :
  sessionInvariant s0 st -> sessionInvariant s0 (Server.act a st).
Proof.
  destruct st as [s x]. destruct a as [i| |]; cbn [Server.act fst snd].
  - apply step_preserves.
  - unfold sessionInvariant. cbn. tauto.
  - unfold sessionInvariant. cbn. tauto.
Qed.

Lemma run_preserves (acts : list Server.action) :
  forall st, sessionInvariant s0 st -> sessionInvariant s0 (Server.run acts st).
Proof.
  induction acts as [|a acts IH]; intros st Hst; [exact Hst|].
  cbn. apply IH. now apply act_preserves.
Qed.

Lemma start_invariant (c : Conn) : sessionInvariant s0 (s0, Server.start c).
Proof. split; reflexivity. Qed.

Lemma invariant_calls (st : Server.WordOfWisdomServer * Server.session) :
  sessionInvariant s0 st ->
  match Server.at_ (snd st) with
  | Server.Accepted | Server.Counted => Server.calls (snd st) = []
  | _ => orderlyCalls s0 (Server.calls (snd st))
  end.
Proof.
  intros [_ H].
  destruct (Server.at_ (snd st)); try exact H;
    destruct H as [l [Hl Hc]]; exists l; eexists;
      (split; [exact Hl|]); left; exact Hc.
Qed.

Lemma orderlyCalls_policy (cs : list Server.call) :
  orderlyCalls s0 cs ->
  exists l d, issuedUnder s0 l d /\
    filter isPolicyCall cs = [Server.CallAdjustDifficulty l d] /\
    forall lv d' r, In (Server.CallVerifyPoW lv d' r) cs -> d' = d.
Proof.
  intros [l [d [Hl [-> | [lv [r ->]]]]]]; exists l, d; (split; [exact Hl|]);
    (split; [reflexivity|]).
  - intros lv' d' r' [Habs|[]]. discriminate.
  - intros lv' d' r' [Habs|[Heq|[]]]; [discriminate|]. now injection Heq.
Qed.

End Session.


(** Thirty sessions enter between the challenge and the solution: the
    load is 1 at issuance (difficulty 4) and 31 at verification, where the
    policy would give 5; the verification is called with 4. *)
Example difficulty_survives_load_change :
  let line := lit "Nonce:1;Timestamp:2024-02-29T07:04:06Z" ++ ["010"%char] in
  let acts :=
    repeat (Server.Own (Sample.input Sample.issuedAt)) 3 ++
    repeat Server.OtherEnters 30 ++
    repeat (Server.Own (Sample.input Sample.verifiedAt)) 3 in
  Server.calls (snd (Server.run acts
                       (Sample.server, Server.start (Sample.openConn (Val line))))) =
    [Server.CallAdjustDifficulty 1 4; Server.CallVerifyPoW 31 4 (Val false)] /\
  Server.adjustDifficulty (Server.withLoad Sample.server 31) = 5.
Proof. vm_compute. split; reflexivity. Qed.


(** ** Decoding the solution line *)

Section SolutionLine.

Lemma returns_bind {A B : Type} (m : exec A) (k : A -> exec B) :
  returns m -> (forall a, returns (k a)) -> returns (bind m k).
Proof. destruct m; cbn; auto. Qed.

Lemma getnum_returns (s : gostring) (fixed : bool) : returns (Time.getnum s fixed).
Proof.
  unfold Time.getnum.
  destruct s as [|c0 [|c1 r]]; cbn; try exact I;
    destruct (isDigit c0); cbn; try exact I;
    try destruct (isDigit c1); cbn; try exact I;
    destruct fixed; exact I.
Qed.

Lemma skip_returns (c : ascii) (s : gostring) : returns (Time.skip c s).
Proof.
  unfold Time.skip. destruct s as [|c' r]; [exact I|].
  destruct (Ascii.eqb c' c); exact I.
Qed.

Lemma inRange_returns (lo hi x : Z) : returns (Time.inRange lo hi x).
Proof. unfold Time.inRange. destruct (_ && _); exact I. Qed.

Lemma parseYear_returns (s : gostring) : returns (Time.parseYear s).
Proof.
  unfold Time.parseYear.
  destruct s as [|c0 [|c1 [|c2 [|c3 r]]]]; try exact I.
  destruct (forallb _ _); exact I.
Qed.

Lemma parseOffset_returns (s : gostring) : returns (Time.parseOffset s).
Proof.
  unfold Time.parseOffset.
  destruct s as [|sign [|h0 [|h1 [|colon [|m0 [|m1 rest]]]]]]; try exact I.
  destruct (Ascii.eqb colon ":"); [|exact I].
  apply returns_bind; [apply getnum_returns|]. intros [hr ?].
  apply returns_bind; [apply getnum_returns|]. intros [mm ?].
  apply returns_bind; [apply inRange_returns|]. intros _.
  apply returns_bind; [apply inRange_returns|]. intros _.
  destruct (Ascii.eqb sign "+"); [exact I|].
  destruct (Ascii.eqb sign "-"); exact I.
Qed.

Lemma parseZone_returns (s : gostring) : returns (Time.parseZone s).
Proof.
  unfold Time.parseZone. destruct s as [|c rest].
  - apply parseOffset_returns.
  - destruct (Ascii.eqb c "Z"); [exact I | apply parseOffset_returns].
Qed.

Lemma Parse_returns (s : gostring) : returns (Time.ParseRFC3339Nano s).
Proof.
  unfold Time.ParseRFC3339Nano.
  apply returns_bind; [apply parseYear_returns|]. intros [y v].
  apply returns_bind; [apply skip_returns|]. intros v1.
  apply returns_bind; [apply getnum_returns|]. intros [mo v2].
  apply returns_bind; [apply inRange_returns|]. intros _.
  apply returns_bind; [apply skip_returns|]. intros v3.
  apply returns_bind; [apply getnum_returns|]. intros [d v4].
  apply returns_bind; [apply skip_returns|]. intros v5.
  apply returns_bind; [apply getnum_returns|]. intros [h v6].
  apply returns_bind; [apply inRange_returns|]. intros _.
  apply returns_bind; [apply skip_returns|]. intros v7.
  apply returns_bind; [apply getnum_returns|]. intros [mi v8].
  apply returns_bind; [apply inRange_returns|]. intros _.
  apply returns_bind; [apply skip_returns|]. intros v9.
  apply returns_bind; [apply getnum_returns|]. intros [sec v10].
  apply returns_bind; [apply inRange_returns|]. intros _.
  destruct (Time.parseFraction v10) as [ns v11].
  apply returns_bind; [apply parseZone_returns|]. intros [off v12].
  destruct v12; [|exact I].
  destruct (_ || _); exact I.
Qed.

(** A timestamp starts with a digit. *)
Lemma Parse_needs_digit (c : ascii) (s : gostring) :
  isDigit c = false -> Time.ParseRFC3339Nano (c :: s) = Fail ErrParseTime.
Proof.
  intros Hc. unfold Time.ParseRFC3339Nano, Time.parseYear.
  destruct s as [|c1 [|c2 [|c3 r]]]; try reflexivity.
  cbn [forallb]. rewrite Hc. reflexivity.
Qed.

End SolutionLine.

(** A line of two fields without the prefixes [Nonce:] and [Timestamp:]
    is not a strict frame, and [parseResponse] decodes it without error. *)
Lemma parseResponse_accepts_bare_fields :
  strictSolutionFrame (lit "42;2024-01-01T00:00:00Z") = false /\
  Server.parseResponse (lit "42;2024-01-01T00:00:00Z") =
    Val (lit "42", Time.mkTime 2024 1 1 0 0 0 0 0).
Proof. vm_compute. split; reflexivity. Qed.

(** A wrong prefix on the first field is kept as part of the nonce. *)
Example parseResponse_keeps_wrong_prefix :
  Server.parseResponse (lit "Token:42;Timestamp:2024-01-01T00:00:00Z") =
    Val (lit "Token:42", Time.mkTime 2024 1 1 0 0 0 0 0).
Proof. vm_compute. reflexivity. Qed.

(** The two fields in the wrong order are rejected. *)
Example parseResponse_rejects_swapped_fields :
  Server.parseResponse (lit "Timestamp:2024-01-01T00:00:00Z;Nonce:42") =
    Fail ErrInvalidTimestampFormat.
Proof. vm_compute. reflexivity. Qed.

(** C3 (amended). [parseResponse] decodes a line exactly when it has two
    semicolon-separated fields and the second, with a leading
    [Timestamp:] removed if there is one, is an RFC3339 timestamp; the
    nonce is then the first field with a leading [Nonce:] removed if
    there is one. Any other number of fields is rejected as an invalid
    response format; a second field that is not such a timestamp, in
    particular a second field that starts with [Nonce:] (the fields in
    the wrong order), is rejected as an invalid timestamp format. *)
Theorem parseResponse_decoding (response : gostring) :
  (forall nonce timestamp,
     Server.parseResponse response = Val (nonce, timestamp) <->
     exists field0 field1,
       Split response ";" = [field0; field1] /\
       nonce = TrimPrefix field0 (lit "Nonce:") /\
       Time.ParseRFC3339Nano (TrimPrefix field1 (lit "Timestamp:")) = Val timestamp) /\
  (length (Split response ";") <> 2%nat ->
     Server.parseResponse response = Fail ErrInvalidResponseFormat) /\
  (forall field0 field1,
     Split response ";" = [field0; field1] ->
     (forall timestamp,
        Time.ParseRFC3339Nano (TrimPrefix field1 (lit "Timestamp:")) <> Val timestamp) ->
     Server.parseResponse response = Fail ErrInvalidTimestampFormat) /\
  (forall field0 field1,
     Split response ";" = [field0; field1] ->
     HasPrefix field1 (lit "Nonce:") = true ->
     Server.parseResponse response = Fail ErrInvalidTimestampFormat).
Proof.
  unfold Server.parseResponse.
  assert (Hbad : forall field0 field1,
            Split response ";" = [field0; field1] ->
            (forall timestamp,
               Time.ParseRFC3339Nano (TrimPrefix field1 (lit "Timestamp:"))
               <> Val timestamp) ->
            match Split response ";" with
            | [part0; part1] =>
                bind (wrapErr ErrInvalidTimestampFormat
                        (Time.ParseRFC3339Nano (TrimPrefix part1 (lit "Timestamp:"))))
                     (fun timestamp => Val (TrimPrefix part0 (lit "Nonce:"), timestamp))
            | _ => Fail ErrInvalidResponseFormat
            end = Fail ErrInvalidTimestampFormat).
  { intros f0 f1 Hsplit Hno. rewrite Hsplit.
    pose proof (Parse_returns (TrimPrefix f1 (lit "Timestamp:"))) as Hret.
    destruct (Time.ParseRFC3339Nano (TrimPrefix f1 (lit "Timestamp:")))
      as [t|e|p]; [exfalso; now apply (Hno t) | reflexivity | destruct Hret]. }
  split; [|split; [|split]].
  - intros nonce timestamp. split.
    + intros H.
      destruct (Split response ";") as [|f0 [|f1 [|f2 r]]]; try discriminate.
      exists f0, f1. split; [reflexivity|].
      destruct (Time.ParseRFC3339Nano (TrimPrefix f1 (lit "Timestamp:")))
        as [t|e|p]; cbn in H; try discriminate.
      injection H as <- <-. split; reflexivity.
    + intros [f0 [f1 [Hsplit [-> Hparse]]]]. rewrite Hsplit, Hparse. reflexivity.
  - intros Hlen.
    destruct (Split response ";") as [|f0 [|f1 [|f2 r]]]; try reflexivity.
    exfalso. apply Hlen. reflexivity.
  - exact Hbad.
  - intros f0 f1 Hsplit Hnonce. apply (Hbad f0 f1 Hsplit).
    intros timestamp.
    destruct f1 as [|c f1]; [discriminate|].
    cbn in Hnonce. apply andb_true_iff in Hnonce. destruct Hnonce as [Hc _].
    apply Ascii.eqb_eq in Hc. subst c.
    unfold TrimPrefix. cbn [HasPrefix lit list_ascii_of_string Ascii.eqb Bool.eqb andb].
    rewrite Parse_needs_digit by reflexivity. discriminate.
Qed.

(** ** Decimal digits *)

Section Digits.

Lemma digit_cases (d : Z) :
  0 <= d <= 9 ->
  d = 0 \/ d = 1 \/ d = 2 \/ d = 3 \/ d = 4 \/ d = 5 \/ d = 6 \/ d = 7 \/ d = 8 \/ d = 9.
Proof. lia. Qed.

Ltac each_digit d H :=
  destruct (digit_cases d H) as [->|[->|[->|[->|[->|[->|[->|[->|[->| ->]]]]]]]]].

Lemma isDigit_digitChar (d : Z) : 0 <= d <= 9 -> isDigit (digitChar d) = true.
Proof. intros H. each_digit d H; reflexivity. Qed.

Lemma digitVal_digitChar (d : Z) : 0 <= d <= 9 -> digitVal (digitChar d) = d.
Proof. intros H. each_digit d H; reflexivity. Qed.

(** A digit differs from every byte that is not one. *)
Lemma digit_neq (c x : ascii) :
  isDigit c = true -> isDigit x = false -> Ascii.eqb c x = false.
Proof.
  intros Hc Hx. destruct (Ascii.eqb_spec c x) as [->|_]; [congruence | reflexivity].
Qed.

Lemma digitsValue_snoc (s : gostring) (c : ascii) :
  digitsValue (s ++ [c]) = digitsValue s * 10 + digitVal c.
Proof. unfold digitsValue. rewrite fold_left_app. reflexivity. Qed.

Lemma digitsValue_zeros (s : gostring) (j : nat) :
  digitsValue (s ++ repeat "0"%char j) = digitsValue s * 10 ^ Z.of_nat j.
Proof.
  induction j as [|j IH].
  - rewrite app_nil_r. cbn. lia.
  - replace (repeat "0"%char (S j)) with (repeat "0"%char j ++ ["0"%char])
      by (symmetry; apply (repeat_cons j "0"%char)).
    rewrite app_assoc, digitsValue_snoc, IH.
    change (digitVal "0") with 0.
    rewrite Nat2Z.inj_succ, Z.pow_succ_r by lia. lia.
Qed.

Lemma fixedDigits_length (w : nat) : forall x, length (fixedDigits w x) = w.
Proof.
  induction w as [|w IH]; intros x; cbn [fixedDigits]; [reflexivity|].
  rewrite length_app, IH. cbn. lia.
Qed.

Lemma fixedDigits_isDigit (w : nat) :
  forall x, 0 <= x -> forallb isDigit (fixedDigits w x) = true.
Proof.
  induction w as [|w IH]; intros x Hx; cbn [fixedDigits]; [reflexivity|].
  rewrite forallb_app, IH by lia. cbn [forallb andb].
  rewrite isDigit_digitChar by lia. reflexivity.
Qed.

Lemma fixedDigits_value (w : nat) :
  forall x, 0 <= x < 10 ^ Z.of_nat w -> digitsValue (fixedDigits w x) = x.
Proof.
  induction w as [|w IH]; intros x Hx.
  - cbn in *. lia.
  - cbn [fixedDigits]. rewrite Nat2Z.inj_succ, Z.pow_succ_r in Hx by lia.
    rewrite digitsValue_snoc, IH, digitVal_digitChar by lia. lia.
Qed.

Lemma fixedDigits_zero (j : nat) : fixedDigits j 0 = repeat "0"%char j.
Proof.
  induction j as [|j IH]; [reflexivity|].
  cbn [fixedDigits]. change (0 / 10) with 0. rewrite IH.
  change [digitChar (0 mod 10)] with ["0"%char].
  symmetry. apply (repeat_cons j "0"%char).
Qed.

(** Digits beyond the size of the number are zeros in front. *)
Lemma fixedDigits_pad (j k : nat) :
  forall x, 0 <= x < 10 ^ Z.of_nat k ->
    fixedDigits (k + j) x = repeat "0"%char j ++ fixedDigits k x.
Proof.
  induction k as [|k IH]; intros x Hx.
  - cbn in Hx. assert (x = 0) by lia. subst x.
    cbn [Nat.add fixedDigits]. rewrite app_nil_r. apply fixedDigits_zero.
  - rewrite Nat2Z.inj_succ, Z.pow_succ_r in Hx by lia.
    cbn [Nat.add fixedDigits]. rewrite IH by lia. now rewrite app_assoc.
Qed.

(** With enough fuel [udigits] gives the digits of the number, as many
    as it has. *)
Lemma udigits_fixed (fuel : nat) :
  forall u, (1 <= fuel)%nat -> 0 <= u < 10 ^ Z.of_nat fuel ->
    exists k, (1 <= k)%nat /\ u < 10 ^ Z.of_nat k /\
              (k = 1%nat \/ 10 ^ (Z.of_nat k - 1) <= u) /\
              udigits fuel u = fixedDigits k u.
Proof.
  induction fuel as [|fuel IH]; intros u Hfuel Hu; [lia|].
  cbn [udigits]. destruct (Z.ltb_spec u 10) as [Hsmall|Hbig].
  - exists 1%nat. repeat split; try lia.
    cbn [fixedDigits app]. rewrite Z.mod_small by lia. reflexivity.
  - rewrite Nat2Z.inj_succ, Z.pow_succ_r in Hu by lia.
    assert (Hf : (1 <= fuel)%nat).
    { destruct fuel; [cbn in Hu; lia | lia]. }
    destruct (IH (u / 10) Hf) as [k [Hk [Hlt [Hge Heq]]]]; [lia|].
    exists (S k). rewrite Nat2Z.inj_succ, Z.pow_succ_r by lia.
    repeat split; try lia.
    + right. replace (Z.succ (Z.of_nat k) - 1) with (Z.of_nat k) by lia.
      destruct Hge as [->|Hge]; [cbn; lia|].
      replace (Z.of_nat k) with (Z.succ (Z.of_nat k - 1)) by lia.
      rewrite Z.pow_succ_r by lia. lia.
    + cbn [fixedDigits]. now rewrite Heq.
Qed.

Lemma formatUint_fixed (u : Z) :
  0 <= u ->
  exists k, (1 <= k)%nat /\ u < 10 ^ Z.of_nat k /\
            (k = 1%nat \/ 10 ^ (Z.of_nat k - 1) <= u) /\
            formatUint u = fixedDigits k u.
Proof.
  intros Hu. unfold formatUint. apply udigits_fixed; [lia|].
  split; [assumption|].
  rewrite Nat2Z.inj_succ, Z2Nat.id by apply Z.log2_nonneg.
  apply Z.lt_le_trans with (2 ^ Z.succ (Z.log2 u)).
  - destruct (Z.eq_dec u 0) as [->|Hnz]; [cbn; lia|].
    apply Z.log2_spec. lia.
  - apply Z.pow_le_mono_l. lia.
Qed.

(** [strconv.Atoi] reads back what [strconv.Itoa] and [%d] print. *)
Lemma Atoi_Itoa (i : Z) : inInt i -> Atoi (Itoa i) = Val i.
Proof.
  unfold inInt. intros Hi. unfold Itoa.
  destruct (Z.ltb_spec i 0) as [Hneg|Hpos].
  - destruct (formatUint_fixed (- i)) as [k [Hk [Hlt [_ Heq]]]]; [lia|].
    unfold Atoi. cbn [Ascii.eqb Bool.eqb andb]. cbv iota beta.
    rewrite Heq.
    pose proof (fixedDigits_length k (- i)) as Hlen.
    destruct (fixedDigits k (- i)) as [|c r] eqn:Hds; [cbn in Hlen; lia|].
    rewrite <- Hds, fixedDigits_isDigit, fixedDigits_value by lia.
    replace (- - i) with i by lia.
    destruct (Z.leb_spec minInt i); [|lia].
    destruct (Z.leb_spec i maxInt); [|lia]. reflexivity.
  - destruct (formatUint_fixed i) as [k [Hk [Hlt [_ Heq]]]]; [lia|].
    unfold Atoi. rewrite Heq.
    pose proof (fixedDigits_length k i) as Hlen.
    pose proof (fixedDigits_isDigit k i Hpos) as Hdig.
    pose proof (fixedDigits_value k i (conj Hpos Hlt)) as Hval.
    destruct (fixedDigits k i) as [|c r] eqn:Hds; [cbn in Hlen; lia|].
    assert (Hc : isDigit c = true).
    { cbn [forallb] in Hdig. now apply andb_true_iff in Hdig. }
    rewrite (digit_neq c "-" Hc eq_refl), (digit_neq c "+" Hc eq_refl).
    rewrite Hdig, Hval.
    destruct (Z.leb_spec minInt i); [|lia].
    destruct (Z.leb_spec i maxInt); [|lia]. reflexivity.
Qed.

End Digits.

(** ** Timestamps: parsing what was formatted *)

Section Timestamps.

Lemma appendInt_two (x : Z) :
  0 <= x < 100 -> Time.appendInt x 2 = [digitChar (x / 10); digitChar (x mod 10)].
Proof.
  intros Hx. unfold Time.appendInt.
  destruct (Z.ltb_spec x 0); [lia|]. rewrite Z.abs_eq by lia.
  cbn [Z.eqb Pos.eqb andb app].
  destruct (Z.ltb_spec x 100); [reflexivity | lia].
Qed.

Lemma appendInt_four (x : Z) :
  0 <= x < 10000 ->
  Time.appendInt x 4 =
  [digitChar (x / 1000); digitChar (x / 100 mod 10);
   digitChar (x / 10 mod 10); digitChar (x mod 10)].
Proof.
  intros Hx. unfold Time.appendInt.
  destruct (Z.ltb_spec x 0); [lia|]. rewrite Z.abs_eq by lia.
  cbn [Z.eqb Pos.eqb andb app].
  destruct (Z.ltb_spec x 10000); [reflexivity | lia].
Qed.

Lemma appendInt_nine (x : Z) :
  0 <= x < 1000000000 -> Time.appendInt x 9 = fixedDigits 9 x.
Proof.
  intros Hx. unfold Time.appendInt.
  destruct (Z.ltb_spec x 0); [lia|]. rewrite Z.abs_eq by lia.
  cbn [Z.eqb Pos.eqb andb app].
  destruct (formatUint_fixed x) as [k [Hk [Hlt [Hge Heq]]]]; [lia|].
  rewrite Heq, fixedDigits_length.
  assert (Hk9 : (k <= 9)%nat).
  { destruct Hge as [->|Hge]; [lia|].
    destruct (Nat.le_gt_cases k 9) as [|Hgt]; [assumption|].
    assert (10 ^ 9 <= 10 ^ (Z.of_nat k - 1)) by (apply Z.pow_le_mono_r; lia).
    lia. }
  replace (Z.to_nat (9 - Z.of_nat k)) with (9 - k)%nat by lia.
  rewrite <- fixedDigits_pad by lia. f_equal. lia.
Qed.

Lemma getnum_appendInt (x : Z) (fixed : bool) (rest : gostring) :
  0 <= x < 100 -> Time.getnum (Time.appendInt x 2 ++ rest) fixed = Val (x, rest).
Proof.
  intros Hx. rewrite appendInt_two by assumption. cbn [app Time.getnum].
  rewrite !isDigit_digitChar, !digitVal_digitChar by lia.
  do 2 f_equal. lia.
Qed.

Lemma parseYear_appendInt (y : Z) (rest : gostring) :
  0 <= y < 10000 -> Time.parseYear (Time.appendInt y 4 ++ rest) = Val (y, rest).
Proof.
  intros Hy. rewrite appendInt_four by assumption. cbn [app Time.parseYear forallb].
  rewrite !isDigit_digitChar by lia. cbn [andb].
  unfold digitsValue. cbn [fold_left].
  rewrite !digitVal_digitChar by lia. do 2 f_equal. lia.
Qed.

(** What [trimZeros] drops is a run of zeros. *)
Lemma trimZeros_split (s : gostring) :
  exists j, s = Time.trimZeros s ++ repeat "0"%char j.
Proof.
  induction s as [|c s [j IH]].
  - exists 0%nat. reflexivity.
  - cbn [Time.trimZeros]. destruct (Time.trimZeros s) as [|c' r] eqn:Ht.
    + destruct (Ascii.eqb_spec c "0") as [->|Hc].
      * exists (S j). cbn [app] in *. now rewrite IH at 1.
      * exists j. cbn [app] in *. now rewrite IH at 1.
    + exists j. cbn [app] in *. now rewrite IH at 1.
Qed.

Lemma forallb_app_l {A : Type} (f : A -> bool) (a b : list A) :
  forallb f (a ++ b) = true -> forallb f a = true.
Proof. rewrite forallb_app. intros H. now apply andb_true_iff in H. Qed.

Lemma takeDigits_stop (ds : gostring) (c : ascii) (rest : gostring) :
  forallb isDigit ds = true -> isDigit c = false ->
  Time.takeDigits (ds ++ c :: rest) = ds.
Proof.
  intros Hds Hc. induction ds as [|d ds IH]; cbn [app Time.takeDigits].
  - now rewrite Hc.
  - cbn [forallb] in Hds. apply andb_true_iff in Hds. destruct Hds as [Hd Hds].
    rewrite Hd. f_equal. now apply IH.
Qed.

(** The fraction of a second is read back, up to the [Z] of the zone. *)
Lemma parseFraction_appendNano (ns : Z) (rest : gostring) :
  0 <= ns < 1000000000 ->
  Time.parseFraction (Time.appendNano ns ++ "Z"%char :: rest) =
  (ns, "Z"%char :: rest).
Proof.
  intros Hns. unfold Time.appendNano.
  destruct (Z.eqb_spec ns 0) as [->|Hnz].
  - cbn [app]. unfold Time.parseFraction. destruct rest as [|c r]; [reflexivity|].
    reflexivity.
  - rewrite appendInt_nine by assumption.
    destruct (trimZeros_split (fixedDigits 9 ns)) as [j Hj].
    pose proof (fixedDigits_isDigit 9 ns ltac:(lia)) as Hdig.
    pose proof (fixedDigits_value 9 ns ltac:(cbn; lia)) as Hval.
    pose proof (fixedDigits_length 9 ns) as Hlen.
    set (tz := Time.trimZeros (fixedDigits 9 ns)) in *.
    rewrite Hj in Hdig, Hval, Hlen. clear Hj.
    rewrite digitsValue_zeros in Hval. rewrite length_app, repeat_length in Hlen.
    apply forallb_app_l in Hdig.
    destruct tz as [|c tz'] eqn:Htz.
    { cbn in Hval. lia. }
    assert (Hc : isDigit c = true).
    { cbn [forallb] in Hdig. now apply andb_true_iff in Hdig. }
    unfold Time.parseFraction. cbn [app]. cbn [Time.commaOrPeriod Ascii.eqb Bool.eqb andb orb].
    rewrite Hc. cbn [tl].
    change (c :: tz' ++ "Z"%char :: rest) with ((c :: tz') ++ "Z"%char :: rest).
    rewrite takeDigits_stop by (try assumption; reflexivity).
    rewrite firstn_all2 by lia.
    f_equal.
    + rewrite <- Hval. f_equal. f_equal. lia.
    + change ("."%char :: (c :: tz') ++ "Z"%char :: rest)
        with (("."%char :: c :: tz') ++ "Z"%char :: rest).
      replace (S (length (c :: tz'))) with (length ("."%char :: c :: tz') + 0)%nat
        by (cbn [length]; lia).
      rewrite skipn_app, skipn_all2 by (cbn [length]; lia).
      replace (length ("."%char :: c :: tz') + 0 - length ("."%char :: c :: tz'))%nat
        with 0%nat by lia.
      reflexivity.
Qed.

Lemma daysIn_le (m y : Z) : 1 <= m <= 12 -> Time.daysIn m y <= 31.
Proof.
  intros Hm. unfold Time.daysIn.
  destruct ((m =? 2) && Time.isLeap y); [lia|].
  assert (Hc : m = 1 \/ m = 2 \/ m = 3 \/ m = 4 \/ m = 5 \/ m = 6 \/ m = 7 \/
               m = 8 \/ m = 9 \/ m = 10 \/ m = 11 \/ m = 12) by lia.
  destruct Hc as [->|[->|[->|[->|[->|[->|[->|[->|[->|[->|[->| ->]]]]]]]]]]];
    vm_compute; discriminate.
Qed.

(** Parsing the RFC3339Nano text of a UTC reading of a year from 0 to
    9999 gives the reading back. *)
Lemma Parse_Format (t : Time.Time) :
  Time.validTime t = true -> Time.offset t = 0 -> 0 <= Time.year t <= 9999 ->
  Time.ParseRFC3339Nano (Time.FormatRFC3339Nano t) = Val t.
Proof.
  destruct t as [y mo d h mi sec ns off]. unfold Time.validTime.
  cbn [Time.year Time.month Time.day Time.hour Time.minute Time.second
       Time.nanosecond Time.offset].
  intros Hvalid -> Hy.
  repeat (apply andb_true_iff in Hvalid; destruct Hvalid as [Hvalid ?]).
  repeat match goal with
         | H : (_ <=? _) = true |- _ => apply Z.leb_le in H
         | H : (_ <? _) = true |- _ => apply Z.ltb_lt in H
         end.
  pose proof (daysIn_le mo y ltac:(lia)) as Hdays.
  unfold Time.FormatRFC3339Nano, Time.ParseRFC3339Nano.
  cbn [Time.year Time.month Time.day Time.hour Time.minute Time.second
       Time.nanosecond Time.offset].
  rewrite parseYear_appendInt by lia. cbn [bind app Time.skip Ascii.eqb Bool.eqb].
  rewrite getnum_appendInt by lia. cbn [bind app Time.skip Ascii.eqb Bool.eqb].
  unfold Time.inRange at 1.
  destruct (Z.leb_spec 1 mo); [|lia]. destruct (Z.leb_spec mo 12); [|lia].
  cbn [andb bind].
  rewrite getnum_appendInt by lia. cbn [bind app Time.skip Ascii.eqb Bool.eqb].
  rewrite getnum_appendInt by lia. cbn [bind app Time.skip Ascii.eqb Bool.eqb].
  unfold Time.inRange at 1.
  destruct (Z.leb_spec 0 h); [|lia]. destruct (Z.leb_spec h 23); [|lia].
  cbn [andb bind].
  rewrite getnum_appendInt by lia. cbn [bind app Time.skip Ascii.eqb Bool.eqb].
  unfold Time.inRange at 1.
  destruct (Z.leb_spec 0 mi); [|lia]. destruct (Z.leb_spec mi 59); [|lia].
  cbn [andb bind].
  rewrite getnum_appendInt by lia. cbn [bind].
  unfold Time.inRange at 1.
  destruct (Z.leb_spec 0 sec); [|lia]. destruct (Z.leb_spec sec 59); [|lia].
  cbn [andb bind].
  change (Time.appendZone 0) with ["Z"%char].
  rewrite parseFraction_appendNano by lia.
  cbn [Time.parseZone Ascii.eqb Bool.eqb bind].
  destruct (Z.ltb_spec d 1); [lia|].
  destruct (Z.ltb_spec (Time.daysIn mo y) d); [lia|].
  reflexivity.
Qed.

End Timestamps.

(** ** The challenge line: decoding what was encoded *)

Section ChallengeLine.

Lemma TrimPrefix_app (p r : gostring) : TrimPrefix (p ++ r) p = r.
Proof.
  unfold TrimPrefix. rewrite HasPrefix_app.
  replace (length p) with (length p + 0)%nat by lia.
  rewrite skipn_app, skipn_all2 by lia.
  replace (length p + 0 - length p)%nat with 0%nat by lia. reflexivity.
Qed.

Lemma Split_whole (a : gostring) : noSeparator a = true -> Split a ";" = [a].
Proof.
  induction a as [|c a IH]; intros H; [reflexivity|].
  cbn [noSeparator forallb] in H. apply andb_true_iff in H. destruct H as [Hc Ha].
  cbn [Split]. apply negb_true_iff in Hc. rewrite Hc, (IH Ha). reflexivity.
Qed.

Lemma Split_field (a b : gostring) :
  noSeparator a = true -> Split (a ++ ";"%char :: b) ";" = a :: Split b ";".
Proof.
  induction a as [|c a IH]; intros H; [reflexivity|].
  cbn [noSeparator forallb] in H. apply andb_true_iff in H. destruct H as [Hc Ha].
  cbn [Split app]. apply negb_true_iff in Hc. rewrite Hc, (IH Ha). reflexivity.
Qed.

Lemma noSeparator_app (a b : gostring) :
  noSeparator a = true -> noSeparator b = true -> noSeparator (a ++ b) = true.
Proof. unfold noSeparator. intros Ha Hb. now rewrite forallb_app, Ha, Hb. Qed.

Lemma noSeparator_digits (s : gostring) :
  forallb isDigit s = true -> noSeparator s = true.
Proof.
  unfold noSeparator. intros H. apply forallb_forall. intros c Hc.
  rewrite forallb_forall in H. apply negb_true_iff.
  apply digit_neq; [now apply H | reflexivity].
Qed.

Lemma noSeparator_token (token : gostring) :
  alphanumeric token -> noSeparator token = true.
Proof.
  unfold alphanumeric, noSeparator. intros H. apply forallb_forall. intros c Hc.
  rewrite Forall_forall in H. specialize (H c Hc).
  assert (Hall : forallb (fun c => negb (Ascii.eqb c ";")) Server.letters = true)
    by reflexivity.
  rewrite forallb_forall in Hall. now apply Hall.
Qed.

Lemma appendInt_two_digits (x : Z) :
  0 <= x < 100 -> forallb isDigit (Time.appendInt x 2) = true.
Proof.
  intros Hx. rewrite appendInt_two by assumption. cbn [forallb].
  now rewrite !isDigit_digitChar by lia.
Qed.

Lemma appendInt_four_digits (x : Z) :
  0 <= x < 10000 -> forallb isDigit (Time.appendInt x 4) = true.
Proof.
  intros Hx. rewrite appendInt_four by assumption. cbn [forallb].
  now rewrite !isDigit_digitChar by lia.
Qed.

Lemma noSeparator_appendNano (ns : Z) :
  0 <= ns < 1000000000 -> noSeparator (Time.appendNano ns) = true.
Proof.
  intros Hns. unfold Time.appendNano. destruct (ns =? 0); [reflexivity|].
  rewrite appendInt_nine by assumption.
  change ("."%char :: Time.trimZeros (fixedDigits 9 ns))
    with (["."%char] ++ Time.trimZeros (fixedDigits 9 ns)).
  apply noSeparator_app; [reflexivity|]. apply noSeparator_digits.
  destruct (trimZeros_split (fixedDigits 9 ns)) as [j Hj].
  apply forallb_app_l with (b := repeat "0"%char j). rewrite <- Hj.
  apply fixedDigits_isDigit. lia.
Qed.

Lemma noSeparator_Format (t : Time.Time) :
  Time.validTime t = true -> Time.offset t = 0 -> 0 <= Time.year t <= 9999 ->
  noSeparator (Time.FormatRFC3339Nano t) = true.
Proof.
  destruct t as [y mo d h mi sec ns off]. unfold Time.validTime.
  cbn [Time.year Time.month Time.day Time.hour Time.minute Time.second
       Time.nanosecond Time.offset].
  intros Hvalid -> Hy.
  repeat (apply andb_true_iff in Hvalid; destruct Hvalid as [Hvalid ?]).
  repeat match goal with
         | H : (_ <=? _) = true |- _ => apply Z.leb_le in H
         | H : (_ <? _) = true |- _ => apply Z.ltb_lt in H
         end.
  pose proof (daysIn_le mo y ltac:(lia)) as Hdays.
  unfold Time.FormatRFC3339Nano.
  cbn [Time.year Time.month Time.day Time.hour Time.minute Time.second
       Time.nanosecond Time.offset].
  assert (Htwo : forall x, 0 <= x < 100 -> noSeparator (Time.appendInt x 2) = true).
  { intros x Hx. apply noSeparator_digits. now apply appendInt_two_digits. }
  apply noSeparator_app;
    [apply noSeparator_digits; apply appendInt_four_digits; lia|].
  apply noSeparator_app; [reflexivity|].
  apply noSeparator_app; [apply Htwo; lia|].
  apply noSeparator_app; [reflexivity|].
  apply noSeparator_app; [apply Htwo; lia|].
  apply noSeparator_app; [reflexivity|].
  apply noSeparator_app; [apply Htwo; lia|].
  apply noSeparator_app; [reflexivity|].
  apply noSeparator_app; [apply Htwo; lia|].
  apply noSeparator_app; [reflexivity|].
  apply noSeparator_app; [apply Htwo; lia|].
  apply noSeparator_app; [apply noSeparator_appendNano; lia | reflexivity].
Qed.

(** The decimal form of an [int] ends with a digit and has no separator. *)
Lemma Itoa_shape (i : Z) :
  exists front d, 0 <= d <= 9 /\ Itoa i = front ++ [digitChar d] /\
                  noSeparator (Itoa i) = true.
Proof.
  assert (Hu : forall u, 0 <= u ->
            exists front d, 0 <= d <= 9 /\ formatUint u = front ++ [digitChar d] /\
                            noSeparator (formatUint u) = true).
  { intros u Hu. destruct (formatUint_fixed u Hu) as [k [Hk [_ [_ Heq]]]].
    destruct k as [|k]; [lia|].
    exists (fixedDigits k (u / 10)), (u mod 10).
    split; [lia|]. split; [exact Heq|].
    rewrite Heq. apply noSeparator_digits. now apply fixedDigits_isDigit. }
  unfold Itoa. destruct (Z.ltb_spec i 0).
  - destruct (Hu (- i)) as [front [d [Hd [Heq Hno]]]]; [lia|].
    exists ("-"%char :: front), d. split; [assumption|]. split.
    + now rewrite Heq.
    + change ("-"%char :: formatUint (- i)) with (["-"%char] ++ formatUint (- i)).
      apply noSeparator_app; [reflexivity | assumption].
  - now apply Hu.
Qed.

Lemma leadingSpace_newline_rev (r : gostring) :
  leadingSpace (map (@rev ascii) spaces) ("010"%char :: r) = Some ["010"%char].
Proof. vm_compute. reflexivity. Qed.

Lemma leadingSpace_digit_rev (d : Z) (r : gostring) :
  0 <= d <= 9 -> leadingSpace (map (@rev ascii) spaces) (digitChar d :: r) = None.
Proof.
  intros Hd.
  destruct (digit_cases d Hd) as [->|[->|[->|[->|[->|[->|[->|[->|[->| ->]]]]]]]]];
    vm_compute; reflexivity.
Qed.

Lemma leadingSpace_C (r : gostring) : leadingSpace spaces ("C"%char :: r) = None.
Proof. vm_compute. reflexivity. Qed.

(** [TrimSpace] removes the newline that ends a line starting with [C]
    and ending with a digit, and nothing else. *)
Lemma TrimSpace_line (middle : gostring) (d : Z) :
  0 <= d <= 9 ->
  TrimSpace (("C"%char :: middle ++ [digitChar d]) ++ ["010"%char]) =
  "C"%char :: middle ++ [digitChar d].
Proof.
  intros Hd. unfold TrimSpace.
  set (line := "C"%char :: middle ++ [digitChar d]).
  assert (Hleft : trimLeft spaces (length (line ++ ["010"%char])) (line ++ ["010"%char])
                  = line ++ ["010"%char]).
  { subst line. cbn [length app trimLeft]. now rewrite leadingSpace_C. }
  rewrite Hleft. rewrite rev_app_distr. cbn [rev app].
  subst line. cbn [rev]. rewrite rev_app_distr. cbn [rev app].
  cbn [length]. rewrite !length_app. cbn [length].
  replace (length middle + 1 + 1)%nat with (S (S (length middle))) by lia.
  cbn [trimLeft]. rewrite leadingSpace_newline_rev. cbn [length skipn].
  rewrite leadingSpace_digit_rev by assumption.
  cbn [rev]. rewrite rev_app_distr, rev_involutive. reflexivity.
Qed.

End ChallengeLine.

(** C5. For every challenge made of an alphanumeric token, a UTC
    timestamp (a reading of a year from 0 to 9999, the years RFC 3339
    text can express) and an [int] difficulty, whose line fits the 4096
    bytes the client reads, the client decodes from the line the server
    writes the same token, the same timestamp and the same difficulty. *)
Theorem challenge_roundtrip (conn : Conn) (token : gostring)
    (timestamp : Time.Time) (difficulty : Z) :
  alphanumeric token ->
  Time.validTime timestamp = true ->
  Time.offset timestamp = 0 ->
  0 <= Time.year timestamp <= 9999 ->
  inInt difficulty ->
  (length (Server.challengeMessage token timestamp difficulty) <= 4096)%nat ->
  incoming conn = Val (Server.challengeMessage token timestamp difficulty) ->
  Client.receiveChallenge conn = Val (token, timestamp, difficulty).
Proof.
  intros Htoken Hvalid Hutc Hyear Hint Hfits Hin.
  unfold Client.receiveChallenge, Read. rewrite Hin. cbn [bind].
  rewrite firstn_all2 by assumption.
  destruct (Itoa_shape difficulty) as [front [d [Hd [Hitoa HnoI]]]].
  pose proof (noSeparator_token token Htoken) as HnoT.
  pose proof (noSeparator_Format timestamp Hvalid Hutc Hyear) as HnoF.
  unfold Server.challengeMessage.
  set (F := Time.FormatRFC3339Nano timestamp) in *.
  assert (Hline :
    lit "Challenge:" ++ token ++ lit ";Timestamp:" ++ F ++ lit ";Difficulty:" ++
      Itoa difficulty ++ ["010"%char] =
    ("C"%char :: (lit "hallenge:" ++ token ++ lit ";Timestamp:" ++ F ++
                  lit ";Difficulty:" ++ front) ++ [digitChar d]) ++ ["010"%char]).
  { rewrite Hitoa. cbn [lit list_ascii_of_string app].
    repeat (rewrite <- app_assoc; cbn [app]). reflexivity. }
  rewrite Hline, TrimSpace_line by assumption.
  assert (Hbody :
    "C"%char :: (lit "hallenge:" ++ token ++ lit ";Timestamp:" ++ F ++
                 lit ";Difficulty:" ++ front) ++ [digitChar d] =
    (lit "Challenge:" ++ token) ++ ";"%char ::
      ((lit "Timestamp:" ++ F) ++ ";"%char :: (lit "Difficulty:" ++ Itoa difficulty))).
  { rewrite Hitoa. cbn [lit list_ascii_of_string app].
    repeat (rewrite <- app_assoc; cbn [app]). reflexivity. }
  rewrite Hbody.
  rewrite Split_field by (apply noSeparator_app; [reflexivity | assumption]).
  rewrite Split_field by (apply noSeparator_app; [reflexivity | assumption]).
  rewrite Split_whole by (apply noSeparator_app; [reflexivity | assumption]).
  rewrite !TrimPrefix_app.
  subst F. rewrite (Parse_Format timestamp Hvalid Hutc Hyear). cbn [wrapErr bind].
  rewrite (Atoi_Itoa difficulty Hint). reflexivity.
Qed.

Lemma alphanumeric_check (s : gostring) :
  forallb (fun c => existsb (Ascii.eqb c) Server.letters) s = true -> alphanumeric s.
Proof.
  intros H. apply Forall_forall. intros c Hc.
  rewrite forallb_forall in H. specialize (H c Hc).
  apply existsb_exists in H. destruct H as [x [Hx Heq]].
  apply Ascii.eqb_eq in Heq. now subst x.
Qed.

Lemma challenge_roundtrip_witness :
  Client.receiveChallenge
    (Sample.openConn (Val (Server.challengeMessage Sample.token Sample.issuedAt 4))) =
  Val (Sample.token, Sample.issuedAt, 4).
Proof.
  apply (challenge_roundtrip
           (Sample.openConn (Val (Server.challengeMessage Sample.token Sample.issuedAt 4)))
           Sample.token Sample.issuedAt 4).
  - apply alphanumeric_check. reflexivity.
  - reflexivity.
  - reflexivity.
  - vm_compute. split; discriminate.
  - vm_compute. split; discriminate.
  - vm_compute. lia.
  - reflexivity.
Defined.

(** ** The challenges the server issues *)

Section IssuedChallenges.

Lemma generateChallenge_length (intn : nat -> nat) :
  length (Server.generateChallenge intn) = 64%nat.
Proof. unfold Server.generateChallenge. now rewrite length_map, length_seq. Qed.

Lemma generateChallenge_alphanumeric (intn : nat -> nat) :
  alphanumeric (Server.generateChallenge intn).
Proof.
  unfold alphanumeric, Server.generateChallenge. apply Forall_forall.
  intros c Hc. apply in_map_iff in Hc. destruct Hc as [k [<- _]].
  apply nth_In. apply Nat.mod_upper_bound. discriminate.
Qed.

Lemma Itoa_length (i : Z) : inInt i -> (length (Itoa i) <= 20)%nat.
Proof.
  unfold inInt, minInt, maxInt. intros Hi.
  assert (Hu : forall u, 0 <= u <= 2 ^ 63 -> (length (formatUint u) <= 19)%nat).
  { intros u Hu. destruct (formatUint_fixed u) as [k [Hk [_ [Hge Heq]]]]; [lia|].
    rewrite Heq, fixedDigits_length.
    destruct Hge as [->|Hge]; [lia|].
    destruct (Nat.le_gt_cases k 19) as [|Hgt]; [assumption|].
    assert (10 ^ 19 <= 10 ^ (Z.of_nat k - 1)) by (apply Z.pow_le_mono_r; lia).
    lia. }
  unfold Itoa. destruct (Z.ltb_spec i 0).
  - cbn [length]. specialize (Hu (- i)). lia.
  - specialize (Hu i). lia.
Qed.

Lemma appendNano_length (ns : Z) :
  0 <= ns < 1000000000 -> (length (Time.appendNano ns) <= 10)%nat.
Proof.
  intros Hns. unfold Time.appendNano. destruct (ns =? 0); [cbn; lia|].
  rewrite appendInt_nine by assumption.
  destruct (trimZeros_split (fixedDigits 9 ns)) as [j Hj].
  pose proof (fixedDigits_length 9 ns) as Hlen.
  rewrite Hj, length_app in Hlen. cbn [length]. lia.
Qed.

Lemma Format_length (t : Time.Time) :
  Time.validTime t = true -> Time.offset t = 0 -> 0 <= Time.year t <= 9999 ->
  (length (Time.FormatRFC3339Nano t) <= 30)%nat.
Proof.
  destruct t as [y mo d h mi sec ns off]. unfold Time.validTime.
  cbn [Time.year Time.month Time.day Time.hour Time.minute Time.second
       Time.nanosecond Time.offset].
  intros Hvalid -> Hy.
  repeat (apply andb_true_iff in Hvalid; destruct Hvalid as [Hvalid ?]).
  repeat match goal with
         | H : (_ <=? _) = true |- _ => apply Z.leb_le in H
         | H : (_ <? _) = true |- _ => apply Z.ltb_lt in H
         end.
  pose proof (daysIn_le mo y ltac:(lia)) as Hdays.
  pose proof (appendNano_length ns ltac:(lia)) as Hnano.
  unfold Time.FormatRFC3339Nano.
  cbn [Time.year Time.month Time.day Time.hour Time.minute Time.second
       Time.nanosecond Time.offset].
  rewrite appendInt_four by lia. rewrite !appendInt_two by lia.
  change (Time.appendZone 0) with ["Z"%char].
  cbn [app length]. rewrite length_app. cbn [length]. lia.
Qed.

(** The line of a challenge with a generated token fits the buffer the
    client reads it into. *)
Lemma issued_challenge_fits (intn : nat -> nat) (timestamp : Time.Time)
    (difficulty : Z) :
  Time.validTime timestamp = true -> Time.offset timestamp = 0 ->
  0 <= Time.year timestamp <= 9999 -> inInt difficulty ->
  (length (Server.challengeMessage (Server.generateChallenge intn) timestamp
             difficulty) <= 4096)%nat.
Proof.
  intros Hvalid Hutc Hyear Hint. unfold Server.challengeMessage.
  rewrite !length_app, generateChallenge_length.
  pose proof (Format_length timestamp Hvalid Hutc Hyear).
  pose proof (Itoa_length difficulty Hint).
  cbn [lit list_ascii_of_string length]. lia.
Qed.

End IssuedChallenges.

(** ** A whole exchange *)

(** The server issues a challenge of difficulty 1; the client solves it
    and answers one second later; the server verifies a second after that
    and sends a quote, never the error line. *)
Example exchange_ends_with_quote :
  let inputs := fun k : nat =>
    Sample.input (if (k <? 4)%nat then Sample.issuedAt else Sample.verifiedAt) in
  let token := Server.generateChallenge (fun k => k) in
  exists nonce quote,
    Client.solvePoW Sample.client 64 Sample.neverDone token Sample.issuedAt 1 =
      Some (Val nonce) /\
    In quote (Server.quotes Sample.easyServer) /\
    sent (Server.conn (snd (Server.handleConnection inputs Sample.easyServer
            (Sample.openConn (Val (Client.responseMessage nonce Sample.solvedAt)))))) =
      Server.challengeMessage token Sample.issuedAt 1 ++
      lit "Quote:" ++ quote ++ ["010"%char].
Proof.
  intros inputs token.
  exists (lit "4"), (lit "The only true wisdom is in knowing you know nothing. - Socrates").
  split; [vm_compute; reflexivity|]. split; [left; reflexivity|].
  vm_compute. reflexivity.
Qed.

(* ================================================================== *)
(** * Further properties of the server and the client *)
(* ================================================================== *)

(** ** The solution line: decoding what was encoded *)

Section ResponseLine.

(** [TrimSpace] removes the newline that ends a line whose first byte
    starts no white space and whose last byte ends none. *)
Lemma TrimSpace_newline (first last : ascii) (middle : gostring) :
  (forall r, leadingSpace spaces (first :: r) = None) ->
  (forall r, leadingSpace (map (@rev ascii) spaces) (last :: r) = None) ->
  TrimSpace ((first :: middle ++ [last]) ++ ["010"%char]) = first :: middle ++ [last].
Proof.
  intros Hfirst Hlast. unfold TrimSpace.
  set (line := first :: middle ++ [last]).
  assert (Hleft : trimLeft spaces (length (line ++ ["010"%char])) (line ++ ["010"%char])
                  = line ++ ["010"%char]).
  { subst line. cbn [length app trimLeft]. now rewrite Hfirst. }
  rewrite Hleft. rewrite rev_app_distr. cbn [rev app].
  subst line. cbn [rev]. rewrite rev_app_distr. cbn [rev app].
  cbn [length]. rewrite !length_app. cbn [length].
  replace (length middle + 1 + 1)%nat with (S (S (length middle))) by lia.
  cbn [trimLeft]. rewrite leadingSpace_newline_rev. cbn [length skipn].
  rewrite Hlast.
  cbn [rev]. rewrite rev_app_distr, rev_involutive. reflexivity.
Qed.

Lemma leadingSpace_N (r : gostring) : leadingSpace spaces ("N"%char :: r) = None.
Proof. vm_compute. reflexivity. Qed.

Lemma leadingSpace_Z_rev (r : gostring) :
  leadingSpace (map (@rev ascii) spaces) ("Z"%char :: r) = None.
Proof. vm_compute. reflexivity. Qed.

(** The text of a UTC reading ends with [Z]. *)
Lemma Format_utc (t : Time.Time) :
  Time.offset t = 0 ->
  exists body, Time.FormatRFC3339Nano t = body ++ ["Z"%char].
Proof.
  intros Hutc. unfold Time.FormatRFC3339Nano. rewrite Hutc.
  change (Time.appendZone 0) with ["Z"%char].
  eexists. repeat rewrite app_assoc. reflexivity.
Qed.

(** [receiveResponse] reads back the nonce and the timestamp of the line
    [sendResponse] writes. *)
Lemma receiveResponse_responseMessage (conn : Conn) (nonce : gostring)
    (timestamp : Time.Time) :
  noSeparator nonce = true ->
  Time.validTime timestamp = true ->
  Time.offset timestamp = 0 ->
  0 <= Time.year timestamp <= 9999 ->
  (length (Client.responseMessage nonce timestamp) <= 4096)%nat ->
  incoming conn = Val (Client.responseMessage nonce timestamp) ->
  Server.receiveResponse conn = Val (nonce, timestamp).
Proof.
  intros Hnonce Hvalid Hutc Hyear Hfits Hin.
  unfold Server.receiveResponse, Read. rewrite Hin. cbn [bind].
  rewrite firstn_all2 by assumption.
  pose proof (noSeparator_Format timestamp Hvalid Hutc Hyear) as HnoF.
  pose proof (Parse_Format timestamp Hvalid Hutc Hyear) as Hparse.
  destruct (Format_utc timestamp Hutc) as [body Hbody].
  unfold Client.responseMessage.
  set (F := Time.FormatRFC3339Nano timestamp) in *.
  assert (Hline :
    lit "Nonce:" ++ nonce ++ lit ";Timestamp:" ++ F ++ ["010"%char] =
    ("N"%char :: (lit "once:" ++ nonce ++ lit ";Timestamp:" ++ body) ++ ["Z"%char])
      ++ ["010"%char]).
  { rewrite Hbody. cbn [lit list_ascii_of_string app].
    repeat (rewrite <- app_assoc; cbn [app]). reflexivity. }
  rewrite Hline, TrimSpace_newline by (intros; first [apply leadingSpace_N | apply leadingSpace_Z_rev]).
  assert (Hfields :
    "N"%char :: (lit "once:" ++ nonce ++ lit ";Timestamp:" ++ body) ++ ["Z"%char] =
    (lit "Nonce:" ++ nonce) ++ ";"%char :: (lit "Timestamp:" ++ F)).
  { rewrite Hbody. cbn [lit list_ascii_of_string app].
    repeat (rewrite <- app_assoc; cbn [app]). reflexivity. }
  rewrite Hfields. unfold Server.parseResponse.
  rewrite Split_field by (apply noSeparator_app; [reflexivity | assumption]).
  rewrite Split_whole by (apply noSeparator_app; [reflexivity | assumption]).
  rewrite !TrimPrefix_app. rewrite Hparse. reflexivity.
Qed.

End ResponseLine.

(** X1. The server decodes from the line the client's [sendResponse]
    writes the nonce and the timestamp the client sent: for every nonce
    without a semicolon and every UTC timestamp of a year from 0 to 9999,
    when the line fits the 4096 bytes the server reads. *)
Theorem response_roundtrip (conn : Conn) (nonce : gostring)
    (timestamp : Time.Time) :
  noSeparator nonce = true ->
  Time.validTime timestamp = true ->
  Time.offset timestamp = 0 ->
  0 <= Time.year timestamp <= 9999 ->
  (length (Client.responseMessage nonce timestamp) <= 4096)%nat ->
  incoming conn = Val (Client.responseMessage nonce timestamp) ->
  Server.receiveResponse conn = Val (nonce, timestamp).
Proof. exact (receiveResponse_responseMessage conn nonce timestamp). Qed.

Lemma response_roundtrip_witness :
  Server.receiveResponse
    (Sample.openConn (Val (Client.responseMessage (lit "6") Sample.solvedAt))) =
  Val (lit "6", Sample.solvedAt).
Proof.
  apply (response_roundtrip
           (Sample.openConn (Val (Client.responseMessage (lit "6") Sample.solvedAt)))
           (lit "6") Sample.solvedAt).
  - reflexivity.
  - reflexivity.
  - reflexivity.
  - vm_compute. split; discriminate.
  - vm_compute. lia.
  - reflexivity.
Defined.

(** ** What the solver returns *)

Section SolverOutcome.

Variable done : nat -> bool.
Variable challenge : gostring.
Variable serverTimestamp : Time.Time.

Lemma wrap64_inInt (z : Z) : inInt (wrap64 z).
Proof. unfold inInt, wrap64, minInt, maxInt. lia. Qed.

Lemma wrap64_small (z : Z) : inInt z -> wrap64 z = z.
Proof. unfold inInt, wrap64, minInt, maxInt. lia. Qed.

(** A value the loop returns is the decimal form of an [int] whose digest
    has the required prefix. *)
Lemma solveLoop_sound (requiredPrefix : gostring) (fuel : nat) :
  forall (k : nat) (start : Z) (v : gostring),
    inInt start ->
    Client.solveLoop fuel done k challenge serverTimestamp requiredPrefix start =
      Some (Val v) ->
    exists n, inInt n /\ v = Itoa n /\
      HasPrefix (compute challenge (Itoa n) serverTimestamp) requiredPrefix = true.
Proof.
  induction fuel as [|fuel IH]; intros k start v Hstart H; [discriminate|].
  cbn [Client.solveLoop] in H.
  destruct (done k); [discriminate|].
  fold (compute challenge (Itoa start) serverTimestamp) in H.
  destruct (HasPrefix (compute challenge (Itoa start) serverTimestamp) requiredPrefix)
    eqn:Hq.
  - injection H as <-. exists start. auto.
  - apply (IH _ _ _ (wrap64_inInt _) H).
Qed.

(** With a prefix no digest has, the loop returns no value: it is
    cancelled or still running. *)
Lemma solveLoop_unsatisfiable (requiredPrefix : gostring) (fuel : nat) :
  (forall n, HasPrefix (compute challenge (Itoa n) serverTimestamp) requiredPrefix
             = false) ->
  forall (k : nat) (start : Z),
    Client.solveLoop fuel done k challenge serverTimestamp requiredPrefix start = None \/
    Client.solveLoop fuel done k challenge serverTimestamp requiredPrefix start =
      Some (Fail ErrContext).
Proof.
  intros Hnone. induction fuel as [|fuel IH]; intros k start; [left; reflexivity|].
  cbn [Client.solveLoop]. destruct (done k); [right; reflexivity|].
  fold (compute challenge (Itoa start) serverTimestamp). rewrite Hnone. apply IH.
Qed.

(** The context found done at poll [k + gap], after candidates that all
    failed: the loop returns the context's error. *)
Lemma solveLoop_cancelled (requiredPrefix : gostring) (gap : nat) :
  forall (fuel k : nat) (start : Z),
    0 <= start ->
    start + Z.of_nat gap <= maxInt ->
    (forall m, start <= m < start + Z.of_nat gap ->
       Spec.qualifies challenge serverTimestamp requiredPrefix m = false) ->
    (forall j, (k <= j < k + gap)%nat -> done j = false) ->
    done (k + gap)%nat = true ->
    (gap < fuel)%nat ->
    Client.solveLoop fuel done k challenge serverTimestamp requiredPrefix start =
    Some (Fail ErrContext).
Proof.
  induction gap as [|gap IH]; intros fuel k start Hstart Hmax Hbelow Hrun Hdone Hfuel.
  - destruct fuel as [|fuel]; [lia|]. cbn [Client.solveLoop].
    replace (k + 0)%nat with k in Hdone by lia. now rewrite Hdone.
  - destruct fuel as [|fuel]; [lia|]. cbn [Client.solveLoop].
    rewrite (Hrun k) by lia.
    assert (Hs : Spec.qualifies challenge serverTimestamp requiredPrefix start = false)
      by (apply Hbelow; lia).
    unfold Spec.qualifies, compute in Hs. rewrite Hs.
    rewrite wrap64_small by (unfold inInt, minInt in *; lia).
    apply IH; try lia.
    + intros m Hm. apply Hbelow. lia.
    + intros j Hj. apply Hrun. lia.
    + replace (S k + gap)%nat with (k + S gap)%nat by lia. exact Hdone.
Qed.

End SolverOutcome.

(** A nonce [solvePoW] returns is the decimal form of an [int], found
    under a difficulty that is a count, and its digest meets it. *)
Lemma solvePoW_sound (c : Client.WordOfWisdomClient) (fuel : nat)
    (done : nat -> bool) (challenge nonce : gostring) (serverTimestamp : Time.Time)
    (difficulty : Z) :
  Client.solvePoW c fuel done challenge serverTimestamp difficulty = Some (Val nonce) ->
  0 <= difficulty /\
  (exists n, inInt n /\ nonce = Itoa n) /\
  meetsDifficulty (compute challenge nonce serverTimestamp) difficulty = Val true.
Proof.
  intros Hsolve. unfold Client.solvePoW in Hsolve.
  destruct (Z.lt_ge_cases difficulty 0) as [Hneg|Hd].
  { rewrite Repeat_negative in Hsolve by assumption. discriminate. }
  split; [lia|]. unfold meetsDifficulty.
  rewrite (Repeat_zero difficulty) in * by lia.
  destruct (solveLoop_sound done challenge serverTimestamp
              (repeat "0"%char (Z.to_nat difficulty)) fuel 0%nat 0 nonce)
    as [n [Hn [-> Hq]]].
  - unfold inInt, minInt, maxInt. lia.
  - exact Hsolve.
  - split; [now exists n|]. cbn [bind]. now rewrite Hq.
Qed.

Lemma solvePoW_verifies (c : Client.WordOfWisdomClient) (fuel : nat)
    (done : nat -> bool) (s : Server.WordOfWisdomServer) (now : Time.Time)
    (challenge nonce : gostring) (clientTimestamp serverTimestamp : Time.Time)
    (difficulty : Z) :
  Client.solvePoW c fuel done challenge serverTimestamp difficulty = Some (Val nonce) ->
  Time.Since now clientTimestamp <= TimeWindow (Server.config s) ->
  Server.verifyPoW s now challenge nonce clientTimestamp serverTimestamp difficulty =
  Val true.
Proof.
  intros Hsolve Hfresh. rewrite verifyPoW_unfold.
  destruct (Z.gtb_spec (Time.Since now clientTimestamp) (TimeWindow (Server.config s)));
    [lia|].
  now destruct (solvePoW_sound _ _ _ _ _ _ _ Hsolve) as [_ [_ Hmeets]].
Qed.

(** X2. Whatever nonce [solvePoW] returns for a challenge is accepted by
    [verifyPoW] for the same token, server timestamp and difficulty, as
    long as the submitted timestamp is within the window at verification
    time. *)
Theorem solved_nonce_is_accepted (c : Client.WordOfWisdomClient) (fuel : nat)
    (done : nat -> bool) (s : Server.WordOfWisdomServer) (now : Time.Time)
    (challenge nonce : gostring) (clientTimestamp serverTimestamp : Time.Time)
    (difficulty : Z) :
  Client.solvePoW c fuel done challenge serverTimestamp difficulty = Some (Val nonce) ->
  Time.Since now clientTimestamp <= TimeWindow (Server.config s) ->
  Server.verifyPoW s now challenge nonce clientTimestamp serverTimestamp difficulty =
  Val true.
Proof.
  exact (solvePoW_verifies c fuel done s now challenge nonce clientTimestamp
           serverTimestamp difficulty).
Qed.

Lemma solved_nonce_is_accepted_witness :
  Server.verifyPoW Sample.server Sample.verifiedAt Sample.token (lit "6")
    Sample.solvedAt Sample.issuedAt 1 = Val true.
Proof.
  apply (solved_nonce_is_accepted Sample.client 7 Sample.neverDone Sample.server
           Sample.verifiedAt Sample.token (lit "6") Sample.solvedAt Sample.issuedAt 1).
  - vm_compute. reflexivity.
  - vm_compute. discriminate.
Defined.

(** X3. When the context is found done at poll [k], after [k] candidates
    that all failed, [solvePoW] returns the context's error and no nonce. *)
Theorem solvePoW_cancelled (c : Client.WordOfWisdomClient) (fuel : nat)
    (done : nat -> bool) (challenge : gostring) (serverTimestamp : Time.Time)
    (difficulty : Z) (k : nat) :
  0 <= difficulty ->
  Z.of_nat k <= maxInt ->
  (forall m, 0 <= m < Z.of_nat k ->
     meetsDifficulty (compute challenge (Itoa m) serverTimestamp) difficulty = Val false) ->
  (forall j, (j < k)%nat -> done j = false) ->
  done k = true ->
  (k < fuel)%nat ->
  Client.solvePoW c fuel done challenge serverTimestamp difficulty =
  Some (Fail ErrContext).
Proof.
  intros Hd Hk Hbelow Hrun Hdone Hfuel.
  unfold meetsDifficulty in Hbelow. unfold Client.solvePoW.
  rewrite (Repeat_zero difficulty Hd) in *. cbn [bind] in Hbelow.
  apply (solveLoop_cancelled done challenge serverTimestamp _ k fuel 0%nat 0);
    try lia.
  - intros m Hm. unfold Spec.qualifies.
    specialize (Hbelow m ltac:(lia)). now injection Hbelow.
  - intros j Hj. apply Hrun. lia.
  - exact Hdone.
Qed.

Lemma solvePoW_cancelled_witness :
  Client.solvePoW Sample.client 10 (fun j => (3 <=? j)%nat) Sample.token
    Sample.issuedAt 1 = Some (Fail ErrContext).
Proof.
  apply (solvePoW_cancelled Sample.client 10 (fun j => (3 <=? j)%nat) Sample.token
           Sample.issuedAt 1 3).
  - lia.
  - vm_compute. discriminate.
  - intros m Hm.
    assert (Hcases : m = 0 \/ m = 1 \/ m = 2) by lia.
    destruct Hcases as [->|[->| ->]]; vm_compute; reflexivity.
  - intros j Hj.
    assert (Hcases : (j = 0 \/ j = 1 \/ j = 2)%nat) by lia.
    destruct Hcases as [->|[->| ->]]; reflexivity.
  - reflexivity.
  - lia.
Defined.

(** ** The size of a digest *)

Section DigestSize.

Lemma bigEndian_length (n : nat) : forall x, length (Sha256.bigEndian n x) = n.
Proof.
  induction n as [|n IH]; intros x; cbn [Sha256.bigEndian]; [reflexivity|].
  rewrite length_app, IH. cbn. lia.
Qed.

Lemma compress_length (h block : list Z) :
  length h = 8%nat -> length (Sha256.compress h block) = 8%nat.
Proof.
  intros Hh. unfold Sha256.compress.
  rewrite length_map, length_combine, Hh. reflexivity.
Qed.

Lemma fold_compress_length (bs : list (list Z)) :
  forall h, length h = 8%nat -> length (fold_left Sha256.compress bs h) = 8%nat.
Proof.
  induction bs as [|b bs IH]; intros h Hh; [exact Hh|].
  cbn [fold_left]. apply IH. now apply compress_length.
Qed.

Lemma concat_bigEndian_length (h : list Z) :
  length (concat (map (Sha256.bigEndian 4) h)) = (4 * length h)%nat.
Proof.
  induction h as [|x h IH]; [reflexivity|].
  cbn [map concat]. rewrite length_app, bigEndian_length, IH. cbn [length]. lia.
Qed.

(** A SHA-256 digest has 32 bytes. *)
Lemma Sum256_length (data : gostring) : length (Sha256.Sum256 data) = 32%nat.
Proof.
  unfold Sha256.Sum256. rewrite length_map, concat_bigEndian_length.
  rewrite fold_compress_length; reflexivity.
Qed.

Lemma EncodeToString_length (src : gostring) :
  length (Hex.EncodeToString src) = (2 * length src)%nat.
Proof.
  unfold Hex.EncodeToString. induction src as [|b src IH]; [reflexivity|].
  cbn [map concat length app]. rewrite IH. lia.
Qed.

(** The hexadecimal digest the server and the client compare has 64
    characters. *)
Lemma compute_length (challenge nonce : gostring) (timestamp : Time.Time) :
  length (compute challenge nonce timestamp) = 64%nat.
Proof. unfold compute. now rewrite EncodeToString_length, Sum256_length. Qed.

Lemma HasPrefix_longer (s p : gostring) :
  (length s < length p)%nat -> HasPrefix s p = false.
Proof.
  revert s. induction p as [|c p IH]; intros s H; [cbn in H; lia|].
  destruct s as [|c' s]; [reflexivity|].
  cbn [HasPrefix]. rewrite IH by (cbn [length] in H; lia).
  apply andb_false_r.
Qed.

Lemma meetsDifficulty_above_64 (challenge nonce : gostring) (timestamp : Time.Time)
    (d : Z) :
  64 < d -> meetsDifficulty (compute challenge nonce timestamp) d = Val false.
Proof.
  intros Hd. unfold meetsDifficulty. rewrite Repeat_zero by lia. cbn [bind].
  rewrite HasPrefix_longer; [reflexivity|].
  rewrite compute_length, repeat_length. lia.
Qed.

End DigestSize.



(** ** The challenge token *)

(** X10. Whatever numbers the generator draws, [generateChallenge]
    returns 64 characters, each one of the 62 letters and digits of
    [letters], the [i]-th being the letter at the [i]-th number drawn. *)
Theorem generateChallenge_token (intn : nat -> nat) :
  length (Server.generateChallenge intn) = 64%nat /\
  alphanumeric (Server.generateChallenge intn) /\
  (forall i, (i < 64)%nat ->
     nth i (Server.generateChallenge intn) "a"%char =
     nth (intn i mod 62) Server.letters "a"%char).
Proof.
  split; [apply generateChallenge_length|].
  split; [apply generateChallenge_alphanumeric|].
  intros i Hi. unfold Server.generateChallenge.
  set (pick := fun k => nth (intn k mod length Server.runes) Server.runes "a"%char).
  rewrite (nth_indep _ "a"%char (pick 0%nat))
    by (now rewrite length_map, length_seq).
  rewrite map_nth. rewrite seq_nth by assumption. reflexivity.
Qed.

(** ** The difficulty policy and the load *)

(** X12. When [MinDifficulty] is at most [MaxDifficulty - 1], the
    difficulty never decreases as the load grows, and it stays between
    [MinDifficulty] and [MaxDifficulty]. *)
Theorem adjustDifficulty_monotone (s1 s2 : Server.WordOfWisdomServer) :
  Server.config s1 = Server.config s2 ->
  minInt < MaxDifficulty (Server.config s1) <= maxInt ->
  MinDifficulty (Server.config s1) <= MaxDifficulty (Server.config s1) - 1 ->
  Server.clientLoad s1 <= Server.clientLoad s2 ->
  Server.adjustDifficulty s1 <= Server.adjustDifficulty s2 /\
  MinDifficulty (Server.config s1) <= Server.adjustDifficulty s1
    <= MaxDifficulty (Server.config s1).
Proof.
  intros Hcfg Hmax Hmin Hload.
  unfold Server.adjustDifficulty, Server.maxDifficultyClientCount,
    Server.minDifficultyClientCount.
  rewrite <- Hcfg.
  assert (Hw : wrap64 (MaxDifficulty (Server.config s1) - 1) =
               MaxDifficulty (Server.config s1) - 1).
  { unfold wrap64, minInt, maxInt in *. lia. }
  rewrite Hw.
  destruct (Z.gtb_spec (Server.clientLoad s1) 50);
    destruct (Z.gtb_spec (Server.clientLoad s1) 20);
    destruct (Z.gtb_spec (Server.clientLoad s2) 50);
    destruct (Z.gtb_spec (Server.clientLoad s2) 20); lia.
Qed.

Lemma adjustDifficulty_monotone_witness :
  Server.adjustDifficulty (Server.withLoad Sample.server 20) <=
  Server.adjustDifficulty (Server.withLoad Sample.server 21).
Proof.
  refine (proj1 (adjustDifficulty_monotone (Server.withLoad Sample.server 20)
                   (Server.withLoad Sample.server 21) eq_refl _ _ _)).
  - vm_compute. split; [reflexivity | discriminate].
  - vm_compute. discriminate.
  - vm_compute. discriminate.
Defined.

(** With [MinDifficulty] equal to [MaxDifficulty] the difficulty drops
    when the load passes 20. *)
Example adjustDifficulty_drops :
  let s := Server.NewServer
    {| Host := []; Port := 0; MaxConnections := 100; ConnectionTimeout := 0;
       TimeWindow := 0; MinDifficulty := 5; MaxDifficulty := 5 |} in
  Server.adjustDifficulty (Server.withLoad s 20) = 5 /\
  Server.adjustDifficulty (Server.withLoad s 21) = 4.
Proof. vm_compute. split; reflexivity. Qed.

(** ** The load counter over a session *)

Section LoadCounter.

Import SessionSpec.

Lemma wrap64_add (a b : Z) : wrap64 (wrap64 a + b) = wrap64 (a + b).
Proof. unfold wrap64. lia. Qed.

Lemma step_load (i : Server.input) (s : Server.WordOfWisdomServer)
    (x : Server.session) (base : Z) :
  Server.clientLoad s = wrap64 (base + ownShare (Server.at_ x)) ->
  Server.clientLoad (fst (Server.step i s x)) =
  wrap64 (base + ownShare (Server.at_ (snd (Server.step i s x)))).
Proof.
  intros H. unfold Server.step.
  destruct (Server.at_ x) as [| |d|d ch ts|d ch ts nonce cts| | |p] eqn:Hat;
    cbn [ownShare] in H.
  - cbn. rewrite H. unfold wrap64. lia.
  - cbn. exact H.
  - destruct (Server.sendChallenge _ _ _ _) as [c' [u|e|p]]; cbn; exact H.
  - destruct (Server.receiveResponse _) as [[nonce cts]|e|p]; cbn; exact H.
  - destruct (Server.verifyPoW _ _ _ _ _ _ _) as [[|]|e|p]; cbn;
      try exact H.
    + destruct (Server.getRandomQuote _ _) as [q|e|p]; cbn; try exact H.
      rewrite H; unfold wrap64; lia.
    + rewrite H; unfold wrap64; lia.
  - cbn. rewrite H. unfold wrap64. lia.
  - cbn. rewrite Hat. exact H.
  - cbn. rewrite Hat. exact H.
Qed.

Lemma run_load (acts : list Server.action) :
  forall (st : Server.WordOfWisdomServer * Server.session) (base : Z),
    Server.clientLoad (fst st) = wrap64 (base + ownShare (Server.at_ (snd st))) ->
    Server.clientLoad (fst (Server.run acts st)) =
    wrap64 (base + netOthers acts + ownShare (Server.at_ (snd (Server.run acts st)))).
Proof.
  induction acts as [|a acts IH]; intros [s x] base H; cbn [fst snd] in H.
  - cbn. rewrite H. f_equal. lia.
  - cbn [Server.run fold_left]. fold (Server.run acts (Server.act a (s, x))).
    destruct a as [i| |]; cbn [Server.act fst snd netOthers].
    + rewrite (IH (Server.step i s x) base); [reflexivity|].
      now apply step_load.
    + rewrite (IH (Server.incrementClientLoad s, x) (base + 1)).
      * f_equal. lia.
      * cbn. rewrite H; unfold wrap64; lia.
    + rewrite (IH (Server.decrementClientLoad s, x) (base - 1)).
      * f_equal. lia.
      * cbn. rewrite H; unfold wrap64; lia.
Qed.

End LoadCounter.

(** X6. At every point of every run, the load counter is its value at
    the start, plus what the other sessions added, plus one while the
    session is between its [incrementClientLoad] and its deferred
    [decrementClientLoad], and plus nothing once the session has ended,
    closed or crashed ([int] arithmetic). *)
Theorem load_counts_the_session (s0 : Server.WordOfWisdomServer) (c : Conn)
    (acts : list Server.action) :
  inInt (Server.clientLoad s0) ->
  let final := Server.run acts (s0, Server.start c) in
  Server.clientLoad (fst final) =
  wrap64 (Server.clientLoad s0 + SessionSpec.netOthers acts +
          SessionSpec.ownShare (Server.at_ (snd final))).
Proof.
  intros Hint final. apply run_load. cbn.
  rewrite Z.add_0_r. symmetry. now apply wrap64_small.
Qed.

Lemma load_counts_the_session_witness :
  Server.clientLoad
    (fst (Server.handleConnection (fun _ => Sample.input Sample.issuedAt) Sample.server
            (Sample.openConn (Fail ErrIO)))) = 0.
Proof.
  refine (load_counts_the_session Sample.server (Sample.openConn (Fail ErrIO))
            (map (fun k => Server.Own (Sample.input Sample.issuedAt)) (seq 0 6)) _).
  vm_compute. split; discriminate.
Defined.

(** ** What a session writes *)

Section Transcript.

Import SessionSpec.

Variable s0 : Server.WordOfWisdomServer.
Variable before : gostring.

Lemma getRandomQuote_member (s : Server.WordOfWisdomServer) (n : nat) (q : gostring) :
  Server.getRandomQuote s n = Val q -> In q (Server.quotes s).
Proof.
  unfold Server.getRandomQuote. destruct (Server.quotes s) as [|q0 qs];
    [discriminate|].
  intros H.
  assert (Hq : q = nth (n mod length (q0 :: qs)) (q0 :: qs) []) by congruence.
  rewrite Hq. apply nth_In. apply Nat.mod_upper_bound. discriminate.
Qed.

Lemma Write_sent (c : Conn) (b : gostring) :
  sent (fst (Write c b)) = sent c \/ sent (fst (Write c b)) = sent c ++ b.
Proof. unfold Write. destruct (writable c); cbn; auto. Qed.

Lemma step_written (i : Server.input) (s : Server.WordOfWisdomServer)
    (x : Server.session) :
  written s0 before (s, x) -> written s0 before (Server.step i s x).
Proof.
  unfold written. cbn [fst snd]. intros [Hq H]. unfold Server.step.
  destruct (Server.at_ x) as [| |d|d ch ts|d ch ts nonce cts| | |p] eqn:Hat.
  - cbn. split; assumption.
  - cbn. split; assumption.
  - unfold Server.sendChallenge, Write.
    destruct (writable (Server.conn x)); cbn; (split; [assumption|]).
    + now rewrite H.
    + left. exact H.
  - destruct (Server.receiveResponse _) as [[nonce cts]|e|p]; cbn;
      (split; [assumption|]); try exact H;
      right; exists d, ch, ts; left; exact H.
  - set (r := Server.verifyPoW s (Server.now i) ch nonce cts ts d).
    assert (Hlast : forall v, r = v ->
              In (Server.CallVerifyPoW (Server.clientLoad s) d v)
                 (Server.calls x ++ [Server.CallVerifyPoW (Server.clientLoad s) d r])).
    { intros v <-. apply in_or_app. right. left. reflexivity. }
    destruct r as [[|]|e|p] eqn:Hr.
    + destruct (Server.getRandomQuote s (Server.intn i 0%nat)) as [q|e|p] eqn:Hquote;
        cbn [fst snd Server.at_ Server.conn Server.calls]; (split; [assumption|]);
        try (right; exists d, ch, ts; left; exact H).
      apply getRandomQuote_member in Hquote. rewrite Hq in Hquote.
      right. exists d, ch, ts. cbv zeta. cbn [Server.conn Server.calls].
      unfold Server.sendQuote.
      destruct (Write_sent (Server.conn x) (lit "Quote:" ++ q ++ ["010"%char]))
        as [Hsame|Hmore].
      * left. rewrite Hsame. exact H.
      * right. right. exists q, (Server.clientLoad s).
        split; [exact Hquote|]. split; [now apply Hlast|].
        rewrite Hmore, H, <- app_assoc. reflexivity.
    + cbn [fst snd Server.at_ Server.conn Server.calls]. split; [assumption|].
      right. exists d, ch, ts. cbv zeta. cbn [Server.conn Server.calls].
      unfold Server.sendError.
      destruct (Write_sent (Server.conn x)
                  (lit "Error:" ++ lit "Invalid proof of work." ++ ["010"%char]))
        as [Hsame|Hmore].
      * left. rewrite Hsame. exact H.
      * right. left. split; [|exists (Server.clientLoad s); now apply Hlast].
        rewrite Hmore, H, <- app_assoc. reflexivity.
    + cbn [fst snd Server.at_ Server.conn Server.calls]. split; [assumption|].
      right. exists d, ch, ts. left. exact H.
    + cbn [fst snd Server.at_ Server.conn Server.calls]. split; [assumption|].
      right. exists d, ch, ts. left. exact H.
  - cbn. split; [assumption|]. exact H.
  - cbn. rewrite Hat. split; assumption.
  - cbn. rewrite Hat. split; assumption.
Qed.

Lemma run_written (acts : list Server.action) :
  forall st, written s0 before st -> written s0 before (Server.run acts st).
Proof.
  induction acts as [|a acts IH]; intros [s x] Hst; [exact Hst|].
  cbn [Server.run fold_left]. fold (Server.run acts (Server.act a (s, x))).
  apply IH. destruct a as [i| |]; cbn [Server.act fst snd].
  - now apply step_written.
  - exact Hst.
  - exact Hst.
Qed.

End Transcript.


(** ** Sessions of a sane server *)

Section SaneServer.

Import SessionSpec.

Variable s0 : Server.WordOfWisdomServer.
Hypothesis Hsane : sane s0.

Lemma adjustDifficulty_count (s : Server.WordOfWisdomServer) :
  Server.config s = Server.config s0 -> 0 <= Server.adjustDifficulty s.
Proof.
  intros Hcfg. destruct Hsane as [Hmin [Hmax _]].
  unfold Server.adjustDifficulty. rewrite Hcfg.
  destruct (_ >? _); [lia|]. destruct (_ >? _); [|lia].
  unfold wrap64, maxInt in *. lia.
Qed.

Lemma verifyPoW_returns (s : Server.WordOfWisdomServer) (now : Time.Time)
    (ch nonce : gostring) (cts ts : Time.Time) (d : Z) :
  0 <= d -> exists b, Server.verifyPoW s now ch nonce cts ts d = Val b.
Proof.
  intros Hd. rewrite verifyPoW_unfold. destruct (_ >? _); [now exists false|].
  rewrite meetsDifficulty_leadingZeros by assumption. eexists. reflexivity.
Qed.

Lemma step_sound (i : Server.input) (s : Server.WordOfWisdomServer)
    (x : Server.session) :
  sound s0 (s, x) -> sound s0 (Server.step i s x).
Proof.
  unfold sound. cbn [fst snd]. intros [Hcfg [Hq [Hd Hp]]]. unfold Server.step.
  destruct (Server.at_ x) as [| |d|d ch ts|d ch ts nonce cts| | |p] eqn:Hat.
  - cbn. repeat split; try assumption; try discriminate.
  - cbn. repeat split; try assumption; try discriminate.
    intros d H. injection H as <-. now apply adjustDifficulty_count.
  - destruct (Server.sendChallenge _ _ _ _) as [c' [u|e|p]]; cbn;
      repeat split; try assumption; try discriminate.
  - destruct (Server.receiveResponse _) as [[nonce cts]|e|p]; cbn;
      repeat split; try assumption; try discriminate.
  - destruct (verifyPoW_returns s (Server.now i) ch nonce cts ts d) as [b Hb];
      [apply Hd; reflexivity|].
    rewrite Hb. destruct b.
    + unfold Server.getRandomQuote. rewrite Hq.
      destruct Hsane as [_ [_ Hquotes]].
      destruct (Server.quotes s0) as [|q0 qs]; [contradiction|].
      cbn. repeat split; try assumption; try discriminate.
    + cbn. repeat split; try assumption; try discriminate.
  - cbn. repeat split; try assumption; try discriminate.
  - cbn. rewrite Hat. repeat split; try assumption; try discriminate.
  - exfalso. now apply (Hp p).
Qed.

Lemma run_sound (acts : list Server.action) :
  forall st, sound s0 st -> sound s0 (Server.run acts st).
Proof.
  induction acts as [|a acts IH]; intros [s x] Hst; [exact Hst|].
  cbn [Server.run fold_left]. fold (Server.run acts (Server.act a (s, x))).
  apply IH. destruct a as [i| |]; cbn [Server.act fst snd].
  - now apply step_sound.
  - exact Hst.
  - exact Hst.
Qed.

Lemma start_sound (c : Conn) : sound s0 (s0, Server.start c).
Proof. repeat split; try discriminate. Qed.

End SaneServer.

Section Progress.

Import SessionSpec.

(** Every statement brings the session nearer to its end. *)
Lemma step_rank (i : Server.input) (s : Server.WordOfWisdomServer)
    (x : Server.session) :
  (rank (Server.at_ (snd (Server.step i s x))) <= pred (rank (Server.at_ x)))%nat.
Proof.
  unfold Server.step.
  destruct (Server.at_ x) as [| |d|d ch ts|d ch ts nonce cts| | |p] eqn:Hat;
    try (cbn; lia).
  - destruct (Server.sendChallenge _ _ _ _) as [c' [u|e|p]]; cbn; lia.
  - destruct (Server.receiveResponse _) as [[nonce cts]|e|p]; cbn; lia.
  - destruct (Server.verifyPoW _ _ _ _ _ _ _) as [[|]|e|p]; cbn; try lia.
    destruct (Server.getRandomQuote _ _) as [q|e|p]; cbn; lia.
  - cbn. rewrite Hat. cbn. lia.
  - cbn. rewrite Hat. cbn. lia.
Qed.

Lemma own_steps_rank (inputs : list Server.input) :
  forall st,
    (rank (Server.at_ (snd (Server.run (map Server.Own inputs) st))) <=
     rank (Server.at_ (snd st)) - length inputs)%nat.
Proof.
  induction inputs as [|i inputs IH]; intros [s x]; [cbn; lia|].
  cbn [map Server.run fold_left Server.act fst snd].
  fold (Server.run (map Server.Own inputs) (Server.step i s x)).
  specialize (IH (Server.step i s x)). pose proof (step_rank i s x).
  cbn [length fst snd] in *. lia.
Qed.

(** [handleConnection] returns or panics: six statements end a session. *)
Lemma handleConnection_ends (inputs : nat -> Server.input)
    (s : Server.WordOfWisdomServer) (c : Conn) :
  rank (Server.at_ (snd (Server.handleConnection inputs s c))) = 0%nat.
Proof.
  unfold Server.handleConnection.
  rewrite <- (map_map inputs Server.Own).
  pose proof (own_steps_rank (map inputs (seq 0 6)) (s, Server.start c)) as H.
  rewrite length_map, length_seq in H. cbn [Server.start Server.at_ snd rank] in H.
  lia.
Qed.

End Progress.



(** ** [handleConnection] from end to end *)

Section WholeSession.

Import SessionSpec.

Lemma run_cons (a : Server.action) (acts : list Server.action)
    (st : Server.WordOfWisdomServer * Server.session) :
  Server.run (a :: acts) st = Server.run acts (Server.act a st).
Proof. reflexivity. Qed.

Lemma receiveResponse_incoming (a b : Conn) :
  incoming a = incoming b -> Server.receiveResponse a = Server.receiveResponse b.
Proof. intros H. unfold Server.receiveResponse, Read. now rewrite H. Qed.

Variable inputs : nat -> Server.input.
Variable s : Server.WordOfWisdomServer.
Variable c : Conn.

Let s1 := Server.incrementClientLoad s.
Let d := Server.adjustDifficulty s1.
Let ch := Server.generateChallenge (Server.intn (inputs 2%nat)).
Let ts := Server.now (inputs 2%nat).
Let c1 := mkConn (sent c ++ Server.challengeMessage ch ts d) true (incoming c).
Let log1 := [Server.CallAdjustDifficulty (Server.clientLoad s1) d].

(** The first two statements: the load is counted, the difficulty set. *)
Lemma handleConnection_adjusted :
  Server.handleConnection inputs s c =
  Server.run [Server.Own (inputs 2%nat); Server.Own (inputs 3%nat);
              Server.Own (inputs 4%nat); Server.Own (inputs 5%nat)]
    (s1, Server.mkSession (Server.Adjusted d) c log1).
Proof. reflexivity. Qed.

(** The write of the challenge fails: the session ends there. *)
Lemma handleConnection_unwritable :
  writable c = false ->
  Server.handleConnection inputs s c =
  (Server.decrementClientLoad s1, Server.mkSession Server.Closed c log1).
Proof.
  intros Hw. rewrite handleConnection_adjusted, run_cons.
  assert (Hstep : Server.act (Server.Own (inputs 2%nat))
                    (s1, Server.mkSession (Server.Adjusted d) c log1) =
                  (s1, Server.mkSession Server.Leaving c log1)).
  { cbn [Server.act Server.step Server.at_ Server.conn Server.calls fst snd].
    unfold Server.sendChallenge, Write. rewrite Hw. reflexivity. }
  rewrite Hstep. reflexivity.
Qed.

(** The challenge is written: the session waits for the solution. *)
Lemma handleConnection_challenged :
  writable c = true ->
  Server.handleConnection inputs s c =
  Server.run [Server.Own (inputs 3%nat); Server.Own (inputs 4%nat);
              Server.Own (inputs 5%nat)]
    (s1, Server.mkSession (Server.ChallengeSent d ch ts) c1 log1).
Proof.
  intros Hw. rewrite handleConnection_adjusted, run_cons.
  assert (Hstep : Server.act (Server.Own (inputs 2%nat))
                    (s1, Server.mkSession (Server.Adjusted d) c log1) =
                  (s1, Server.mkSession (Server.ChallengeSent d ch ts) c1 log1)).
  { cbn [Server.act Server.step Server.at_ Server.conn Server.calls fst snd].
    unfold Server.sendChallenge, Write. rewrite Hw. reflexivity. }
  rewrite Hstep. reflexivity.
Qed.

(** No solution is decoded: the session ends without a reply. *)
Lemma handleConnection_undecoded :
  writable c = true ->
  (forall nonce cts, Server.receiveResponse c <> Val (nonce, cts)) ->
  Server.handleConnection inputs s c =
  (Server.decrementClientLoad s1, Server.mkSession Server.Closed c1 log1).
Proof.
  intros Hw Hno. rewrite handleConnection_challenged, run_cons by assumption.
  assert (Hstep : Server.act (Server.Own (inputs 3%nat))
                    (s1, Server.mkSession (Server.ChallengeSent d ch ts) c1 log1) =
                  (s1, Server.mkSession Server.Leaving c1 log1)).
  { cbn [Server.act Server.step Server.at_ Server.conn Server.calls fst snd].
    rewrite (receiveResponse_incoming c1 c) by reflexivity.
    destruct (Server.receiveResponse c) as [[nonce cts]|e|p];
      [exfalso; now apply (Hno nonce cts) | reflexivity | reflexivity]. }
  rewrite Hstep. reflexivity.
Qed.

(** A solution is decoded: the session goes on to verify it. *)
Lemma handleConnection_decoded (nonce : gostring) (cts : Time.Time) :
  writable c = true ->
  Server.receiveResponse c = Val (nonce, cts) ->
  Server.handleConnection inputs s c =
  Server.run [Server.Own (inputs 4%nat); Server.Own (inputs 5%nat)]
    (s1, Server.mkSession (Server.Received d ch ts nonce cts) c1 log1).
Proof.
  intros Hw Hrecv. rewrite handleConnection_challenged, run_cons by assumption.
  assert (Hstep : Server.act (Server.Own (inputs 3%nat))
                    (s1, Server.mkSession (Server.ChallengeSent d ch ts) c1 log1) =
                  (s1, Server.mkSession (Server.Received d ch ts nonce cts) c1 log1)).
  { cbn [Server.act Server.step Server.at_ Server.conn Server.calls fst snd].
    rewrite (receiveResponse_incoming c1 c) by reflexivity.
    rewrite Hrecv. reflexivity. }
  rewrite Hstep. reflexivity.
Qed.

(** The verdict of [verifyPoW] on a decoded solution. *)
Lemma handleConnection_verdict (nonce : gostring) (cts : Time.Time)
    (r : exec bool) :
  writable c = true ->
  Server.receiveResponse c = Val (nonce, cts) ->
  Server.verifyPoW s1 (Server.now (inputs 4%nat)) ch nonce cts ts d = r ->
  let log2 := log1 ++ [Server.CallVerifyPoW (Server.clientLoad s1) d r] in
  Server.handleConnection inputs s c =
  match r with
  | Val true =>
      match Server.getRandomQuote s1 (Server.intn (inputs 4%nat) 0%nat) with
      | Val quote =>
          (Server.decrementClientLoad s1,
           Server.mkSession Server.Closed
             (mkConn (sent c1 ++ quoteLine quote) true (incoming c)) log2)
      | Fail _ =>
          (Server.decrementClientLoad s1, Server.mkSession Server.Closed c1 log2)
      | Panic p =>
          (Server.decrementClientLoad s1, Server.mkSession (Server.Crashed p) c1 log2)
      end
  | Val false =>
      (Server.decrementClientLoad s1,
       Server.mkSession Server.Closed
         (mkConn (sent c1 ++ invalidProofLine) true (incoming c)) log2)
  | Fail _ =>
      (Server.decrementClientLoad s1, Server.mkSession Server.Closed c1 log2)
  | Panic p =>
      (Server.decrementClientLoad s1, Server.mkSession (Server.Crashed p) c1 log2)
  end.
Proof.
  intros Hw Hrecv Hr log2.
  rewrite (handleConnection_decoded nonce cts Hw Hrecv), run_cons.
  cbn [Server.act Server.step Server.at_ Server.conn Server.calls fst snd].
  rewrite Hr. fold log2.
  destruct r as [[|]|e|p]; try reflexivity.
  destruct (Server.getRandomQuote s1 (Server.intn (inputs 4%nat) 0%nat))
    as [q|e|p]; reflexivity.
Qed.

End WholeSession.

(** X8. When the server reads no solution it can decode (the read fails
    or times out, the line has not two fields, or its timestamp does not
    parse), [handleConnection] closes the session having written the
    challenge line and nothing after it: no error line is sent. *)
Theorem undecoded_solution_gets_no_reply (inputs : nat -> Server.input)
    (s : Server.WordOfWisdomServer) (c : Conn) :
  writable c = true ->
  (forall nonce cts, Server.receiveResponse c <> Val (nonce, cts)) ->
  let final := snd (Server.handleConnection inputs s c) in
  Server.at_ final = Server.Closed /\
  sent (Server.conn final) =
    sent c ++
    Server.challengeMessage (Server.generateChallenge (Server.intn (inputs 2%nat)))
      (Server.now (inputs 2%nat))
      (Server.adjustDifficulty (Server.incrementClientLoad s)).
Proof.
  intros Hw Hno final. subst final.
  rewrite (handleConnection_undecoded inputs s c Hw Hno). split; reflexivity.
Qed.

Lemma undecoded_solution_gets_no_reply_witness :
  sent (Server.conn (snd (Server.handleConnection (fun _ => Sample.input Sample.issuedAt)
                            Sample.server (Sample.openConn (Val (lit "Nonce:6")))))) =
  [] ++ Server.challengeMessage (Server.generateChallenge (fun k => k))
          Sample.issuedAt 4.
Proof.
  refine (proj2 (undecoded_solution_gets_no_reply (fun _ => Sample.input Sample.issuedAt)
                   Sample.server (Sample.openConn (Val (lit "Nonce:6"))) eq_refl _)).
  intros nonce cts. vm_compute. discriminate.
Defined.

(** X5. Under a negative difficulty a solution that is decoded and fresh
    makes [verifyPoW] panic: the session crashes with nothing written
    after the challenge line; an expired one is answered with the error
    line. *)
Theorem negative_difficulty_crashes_session (inputs : nat -> Server.input)
    (s : Server.WordOfWisdomServer) (c : Conn) (nonce : gostring) (cts : Time.Time) :
  writable c = true ->
  Server.receiveResponse c = Val (nonce, cts) ->
  Server.adjustDifficulty (Server.incrementClientLoad s) < 0 ->
  let final := snd (Server.handleConnection inputs s c) in
  let challengeLine :=
    Server.challengeMessage (Server.generateChallenge (Server.intn (inputs 2%nat)))
      (Server.now (inputs 2%nat))
      (Server.adjustDifficulty (Server.incrementClientLoad s)) in
  (Time.Since (Server.now (inputs 4%nat)) cts <= TimeWindow (Server.config s) ->
     Server.at_ final = Server.Crashed NegativeRepeatCount /\
     sent (Server.conn final) = sent c ++ challengeLine) /\
  (Time.Since (Server.now (inputs 4%nat)) cts > TimeWindow (Server.config s) ->
     Server.at_ final = Server.Closed /\
     sent (Server.conn final) = sent c ++ challengeLine ++ invalidProofLine).
Proof.
  intros Hw Hrecv Hneg final challengeLine. subst final. split; intros Hage.
  - rewrite (handleConnection_verdict inputs s c nonce cts
               (Panic NegativeRepeatCount) Hw Hrecv).
    + split; reflexivity.
    + rewrite verifyPoW_unfold.
      change (Server.config (Server.incrementClientLoad s)) with (Server.config s).
      destruct (Z.gtb_spec (Time.Since (Server.now (inputs 4%nat)) cts)
                  (TimeWindow (Server.config s))); [lia|].
      unfold meetsDifficulty. now rewrite Repeat_negative.
  - rewrite (handleConnection_verdict inputs s c nonce cts (Val false) Hw Hrecv).
    + split; [reflexivity|]. cbn [snd Server.conn sent].
      now rewrite <- app_assoc.
    + rewrite verifyPoW_unfold.
      change (Server.config (Server.incrementClientLoad s)) with (Server.config s).
      destruct (Z.gtb_spec (Time.Since (Server.now (inputs 4%nat)) cts)
                  (TimeWindow (Server.config s))); [reflexivity | lia].
Qed.

Lemma negative_difficulty_crashes_session_witness :
  let s := Server.NewServer
    {| Host := []; Port := 0; MaxConnections := 100; ConnectionTimeout := 0;
       TimeWindow := 5 * Time.Minute; MinDifficulty := -1; MaxDifficulty := 6 |} in
  Server.at_ (snd (Server.handleConnection (fun _ => Sample.input Sample.verifiedAt) s
                     (Sample.openConn
                        (Val (Client.responseMessage (lit "6") Sample.solvedAt))))) =
  Server.Crashed NegativeRepeatCount.
Proof.
  intros s.
  refine (proj1 (proj1 (negative_difficulty_crashes_session
                          (fun _ => Sample.input Sample.verifiedAt) s
                          (Sample.openConn
                             (Val (Client.responseMessage (lit "6") Sample.solvedAt)))
                          (lit "6") Sample.solvedAt eq_refl _ _) _)).
  - vm_compute. reflexivity.
  - vm_compute. reflexivity.
  - vm_compute. discriminate.
Defined.

(** A solved challenge and a fresh timestamp: the session ends with a
    quote written. *)
Lemma handleConnection_accepts (inputs : nat -> Server.input)
    (s : Server.WordOfWisdomServer) (c : Conn) (client : Client.WordOfWisdomClient)
    (fuel : nat) (done : nat -> bool) (nonce : gostring) (cts : Time.Time) :
  let token := Server.generateChallenge (Server.intn (inputs 2%nat)) in
  let issuedAt := Server.now (inputs 2%nat) in
  let difficulty := Server.adjustDifficulty (Server.incrementClientLoad s) in
  writable c = true ->
  Server.quotes s <> [] ->
  Client.solvePoW client fuel done token issuedAt difficulty = Some (Val nonce) ->
  Time.validTime cts = true ->
  Time.offset cts = 0 ->
  0 <= Time.year cts <= 9999 ->
  incoming c = Val (Client.responseMessage nonce cts) ->
  Time.Since (Server.now (inputs 4%nat)) cts <= TimeWindow (Server.config s) ->
  let final := snd (Server.handleConnection inputs s c) in
  Server.at_ final = Server.Closed /\
  exists quote,
    In quote (Server.quotes s) /\
    sent (Server.conn final) =
      sent c ++ Server.challengeMessage token issuedAt difficulty ++
      SessionSpec.quoteLine quote.
Proof.
  intros token issuedAt difficulty Hw Hquotes Hsolve Hvalid Hutc Hyear Hin Hfresh final.
  destruct (solvePoW_sound _ _ _ _ _ _ _ Hsolve) as [_ [[n [Hn Hnonce]] _]].
  assert (Hrecv : Server.receiveResponse c = Val (nonce, cts)).
  { apply receiveResponse_responseMessage; try assumption.
    - rewrite Hnonce. now destruct (Itoa_shape n) as [? [? [_ [_ H]]]].
    - unfold Client.responseMessage. rewrite !length_app.
      pose proof (Format_length cts Hvalid Hutc Hyear).
      pose proof (Itoa_length n Hn). rewrite Hnonce.
      cbn [lit list_ascii_of_string length]. lia. }
  assert (Hverify : Server.verifyPoW (Server.incrementClientLoad s)
                      (Server.now (inputs 4%nat)) token nonce cts issuedAt difficulty
                    = Val true)
    by (apply (solvePoW_verifies client fuel done); assumption).
  subst final.
  rewrite (handleConnection_verdict inputs s c nonce cts (Val true) Hw Hrecv Hverify).
  destruct (Server.getRandomQuote (Server.incrementClientLoad s)
              (Server.intn (inputs 4%nat) 0%nat)) as [q|e|p] eqn:Hq.
  - split; [reflexivity|]. exists q. split.
    + now apply getRandomQuote_member in Hq.
    + cbn [snd Server.conn sent]. now rewrite <- app_assoc.
  - unfold Server.getRandomQuote in Hq. cbn [Server.incrementClientLoad
      Server.withLoad Server.quotes] in Hq.
    destruct (Server.quotes s); [contradiction | discriminate].
  - unfold Server.getRandomQuote in Hq. cbn [Server.incrementClientLoad
      Server.withLoad Server.quotes] in Hq.
    destruct (Server.quotes s); [contradiction | discriminate].
Qed.

(** X13. A client that solved the challenge of a session and sends its
    nonce with a timestamp that is fresh at verification time receives a
    quote of the server: [handleConnection] closes the session having
    written the challenge line and then one quote line, never the error
    line. *)
Theorem solved_challenge_earns_quote (inputs : nat -> Server.input)
    (s : Server.WordOfWisdomServer) (c : Conn) (client : Client.WordOfWisdomClient)
    (fuel : nat) (done : nat -> bool) (nonce : gostring) (cts : Time.Time) :
  let token := Server.generateChallenge (Server.intn (inputs 2%nat)) in
  let issuedAt := Server.now (inputs 2%nat) in
  let difficulty := Server.adjustDifficulty (Server.incrementClientLoad s) in
  writable c = true ->
  Server.quotes s <> [] ->
  Client.solvePoW client fuel done token issuedAt difficulty = Some (Val nonce) ->
  Time.validTime cts = true ->
  Time.offset cts = 0 ->
  0 <= Time.year cts <= 9999 ->
  incoming c = Val (Client.responseMessage nonce cts) ->
  Time.Since (Server.now (inputs 4%nat)) cts <= TimeWindow (Server.config s) ->
  let final := snd (Server.handleConnection inputs s c) in
  Server.at_ final = Server.Closed /\
  exists quote,
    In quote (Server.quotes s) /\
    sent (Server.conn final) =
      sent c ++ Server.challengeMessage token issuedAt difficulty ++
      SessionSpec.quoteLine quote.
Proof.
  exact (handleConnection_accepts inputs s c client fuel done nonce cts).
Qed.

Lemma solved_challenge_earns_quote_witness :
  Server.at_ (snd (Server.handleConnection
                     (fun k => Sample.input
                        (if (k <? 4)%nat then Sample.issuedAt else Sample.verifiedAt))
                     Sample.easyServer
                     (Sample.openConn
                        (Val (Client.responseMessage (lit "4") Sample.solvedAt))))) =
  Server.Closed.
Proof.
  refine (proj1 (solved_challenge_earns_quote
                   (fun k => Sample.input
                      (if (k <? 4)%nat then Sample.issuedAt else Sample.verifiedAt))
                   Sample.easyServer
                   (Sample.openConn
                      (Val (Client.responseMessage (lit "4") Sample.solvedAt)))
                   Sample.client 64 Sample.neverDone (lit "4") Sample.solvedAt
                   eq_refl _ _ eq_refl eq_refl _ eq_refl _)).
  - discriminate.
  - vm_compute. reflexivity.
  - vm_compute. split; discriminate.
  - vm_compute. discriminate.
Defined.

(** ** Decoding the challenge line *)

Section ChallengeDecoding.

Lemma digits_returns (neg : bool) (ds : gostring) :
  returns
    match ds with
    | [] => Fail ErrSyntax
    | _ :: _ =>
        if forallb isDigit ds then
          let v := if neg then - digitsValue ds else digitsValue ds in
          if (minInt <=? v) && (v <=? maxInt) then Val v else Fail ErrRange
        else Fail ErrSyntax
    end.
Proof.
  destruct ds as [|c r]; [exact I|].
  destruct (forallb isDigit (c :: r)); [|exact I].
  cbv zeta. destruct (_ && _); exact I.
Qed.

Lemma Atoi_returns (s : gostring) : returns (Atoi s).
Proof.
  unfold Atoi. destruct s as [|c r]; [exact I|].
  destruct (Ascii.eqb c "-"); [apply (digits_returns true r)|].
  destruct (Ascii.eqb c "+");
    [apply (digits_returns false r) | apply (digits_returns false (c :: r))].
Qed.

End ChallengeDecoding.

(** X11. [receiveChallenge] returns the error of a failed read as it is;
    a message that has not exactly three semicolon-separated fields is an
    invalid challenge format; with three fields, a second field that is
    not an RFC3339 timestamp (after a leading [Timestamp:] if any) is an
    invalid timestamp format, whatever the third field is, and otherwise
    a third field that is not a decimal [int] (after a leading
    [Difficulty:] if any) is an invalid difficulty value; when both parse,
    the challenge is the first field without a leading [Challenge:]. It
    never panics. *)
Theorem receiveChallenge_decoding (conn : Conn) :
  (forall e, incoming conn = Fail e -> Client.receiveChallenge conn = Fail e) /\
  (forall data, incoming conn = Val data ->
     let fields := Split (TrimSpace (firstn 4096 data)) ";" in
     (length fields <> 3%nat ->
        Client.receiveChallenge conn = Fail ErrInvalidChallengeFormat) /\
     (forall f0 f1 f2, fields = [f0; f1; f2] ->
        let parsedTime := Time.ParseRFC3339Nano (TrimPrefix f1 (lit "Timestamp:")) in
        let parsedInt := Atoi (TrimPrefix f2 (lit "Difficulty:")) in
        ((forall t, parsedTime <> Val t) ->
           Client.receiveChallenge conn = Fail ErrInvalidTimestampFormat) /\
        (forall t, parsedTime = Val t ->
           ((forall d, parsedInt <> Val d) ->
              Client.receiveChallenge conn = Fail ErrInvalidDifficultyValue) /\
           (forall d, parsedInt = Val d ->
              Client.receiveChallenge conn =
              Val (TrimPrefix f0 (lit "Challenge:"), t, d))))).
Proof.
  split.
  - intros e He. unfold Client.receiveChallenge, Read. now rewrite He.
  - intros data Hdata fields. unfold Client.receiveChallenge, Read.
    rewrite Hdata. cbn [bind]. fold fields. split.
    + intros Hlen.
      destruct fields as [|f0 [|f1 [|f2 [|f3 r]]]]; try reflexivity.
      exfalso. now apply Hlen.
    + intros f0 f1 f2 Hfields. rewrite Hfields.
      pose proof (Parse_returns (TrimPrefix f1 (lit "Timestamp:"))) as Hpt.
      pose proof (Atoi_returns (TrimPrefix f2 (lit "Difficulty:"))) as Hpi.
      set (parsedTime := Time.ParseRFC3339Nano (TrimPrefix f1 (lit "Timestamp:"))) in *.
      set (parsedInt := Atoi (TrimPrefix f2 (lit "Difficulty:"))) in *.
      split.
      * intros Hno. destruct parsedTime as [t|e|p];
          [exfalso; now apply (Hno t) | reflexivity | destruct Hpt].
      * intros t Ht. rewrite Ht. cbn [wrapErr bind]. split.
        -- intros Hno. destruct parsedInt as [d|e|p];
             [exfalso; now apply (Hno d) | reflexivity | destruct Hpi].
        -- intros d Hd. rewrite Hd. reflexivity.
Qed.

(** ** The reply as the client reads it *)

Section Reply.

Import SessionSpec Exchange.

Lemma find_rev_none (c : ascii) (r : gostring) (encs : list gostring) :
  existsb (fun e => match rev e with
                    | l :: _ => Ascii.eqb l c
                    | [] => true
                    end) encs = false ->
  find (HasPrefix (c :: r)) (map (@rev ascii) encs) = None.
Proof.
  induction encs as [|e encs IH]; intros H; [reflexivity|].
  cbn [existsb] in H. apply orb_false_iff in H. destruct H as [He Hrest].
  cbn [map find]. destruct (rev e) as [|l e']; [discriminate|].
  cbn [HasPrefix]. rewrite Ascii.eqb_sym, He. cbn [andb]. now apply IH.
Qed.

Lemma plainLast_split (q : gostring) :
  plainLast q = true ->
  exists front c, q = front ++ [c] /\
    forall r, leadingSpace (map (@rev ascii) spaces) (c :: r) = None.
Proof.
  unfold plainLast. intros H.
  destruct (rev q) as [|c back] eqn:Hrev; [discriminate|].
  exists (rev back), c. split.
  - rewrite <- (rev_involutive q), Hrev. reflexivity.
  - intros r. apply find_rev_none. now apply negb_true_iff in H.
Qed.

Lemma leadingSpace_Q (r : gostring) : leadingSpace spaces ("Q"%char :: r) = None.
Proof. vm_compute. reflexivity. Qed.

Lemma TrimSpace_quoteLine (q : gostring) :
  plainLast q = true -> TrimSpace (quoteLine q) = lit "Quote:" ++ q.
Proof.
  intros H. destruct (plainLast_split q H) as [front [c [-> Hc]]].
  unfold quoteLine.
  assert (Hline : lit "Quote:" ++ (front ++ [c]) ++ ["010"%char] =
                  ("Q"%char :: (lit "uote:" ++ front) ++ [c]) ++ ["010"%char]).
  { cbn [lit list_ascii_of_string app].
    repeat (rewrite <- app_assoc; cbn [app]). reflexivity. }
  rewrite Hline, TrimSpace_newline by (try assumption; apply leadingSpace_Q).
  cbn [lit list_ascii_of_string app].
  repeat (rewrite <- app_assoc; cbn [app]). reflexivity.
Qed.

Lemma receiveServerResponse_quote (conn : Conn) (q : gostring) :
  plainLast q = true ->
  (length (quoteLine q) <= 4096)%nat ->
  incoming conn = Val (quoteLine q) ->
  ClientRun.receiveServerResponse conn = Val (ClientRun.ReceivedQuote q).
Proof.
  intros Hplain Hfits Hin. unfold ClientRun.receiveServerResponse, Read.
  rewrite Hin. cbn [bind]. rewrite firstn_all2 by assumption.
  rewrite TrimSpace_quoteLine by assumption.
  now rewrite HasPrefix_app, TrimPrefix_app.
Qed.

Lemma receiveServerResponse_error (conn : Conn) :
  incoming conn = Val invalidProofLine ->
  ClientRun.receiveServerResponse conn =
  Val (ClientRun.ReceivedError (lit "Invalid proof of work.")).
Proof.
  intros Hin. unfold ClientRun.receiveServerResponse, Read. rewrite Hin.
  vm_compute. reflexivity.
Qed.

End Reply.

(** X14. The client recognises the lines the server writes: the line
    [sendQuote] writes for a quote that is not empty and does not end in
    white space is logged as a received quote with that very text, the
    line [sendError] writes for a rejected solution is logged as the
    error [Invalid proof of work.], and in both cases, as for any line
    read, [receiveServerResponse] returns no error; the error of a failed
    read is returned as it is. *)
Theorem server_lines_are_recognised (conn : Conn) :
  (forall q,
     Exchange.plainLast q = true ->
     (length (SessionSpec.quoteLine q) <= 4096)%nat ->
     incoming conn = Val (SessionSpec.quoteLine q) ->
     ClientRun.receiveServerResponse conn = Val (ClientRun.ReceivedQuote q)) /\
  (incoming conn = Val invalidProofLine ->
     ClientRun.receiveServerResponse conn =
     Val (ClientRun.ReceivedError (lit "Invalid proof of work."))) /\
  (forall data, incoming conn = Val data ->
     exists entry, ClientRun.receiveServerResponse conn = Val entry) /\
  (forall e, incoming conn = Fail e ->
     ClientRun.receiveServerResponse conn = Fail e).
Proof.
  split; [|split; [|split]].
  - intros q. apply receiveServerResponse_quote.
  - apply receiveServerResponse_error.
  - intros data Hin. unfold ClientRun.receiveServerResponse, Read. rewrite Hin.
    cbn [bind]. destruct (HasPrefix _ (lit "Quote:")); [eexists; reflexivity|].
    destruct (HasPrefix _ (lit "Error:")); eexists; reflexivity.
  - intros e Hin. unfold ClientRun.receiveServerResponse, Read. now rewrite Hin.
Qed.

(** The quotes of [NewServer] are all recognised. *)
Example quotes_are_plain (cfg : ServerConfig) :
  forallb Exchange.plainLast (Server.quotes (Server.NewServer cfg)) = true.
Proof. vm_compute. reflexivity. Qed.

(** ** The client's [Run] against a session of the server *)

Section ClientAgainstServer.

Import SessionSpec Exchange.

(** The client decodes the line of a challenge the server issues. *)
Lemma receiveChallenge_challengeMessage (conn : Conn) (token : gostring)
    (timestamp : Time.Time) (difficulty : Z) :
  alphanumeric token ->
  Time.validTime timestamp = true ->
  Time.offset timestamp = 0 ->
  0 <= Time.year timestamp <= 9999 ->
  inInt difficulty ->
  (length (Server.challengeMessage token timestamp difficulty) <= 4096)%nat ->
  incoming conn = Val (Server.challengeMessage token timestamp difficulty) ->
  Client.receiveChallenge conn = Val (token, timestamp, difficulty).
Proof.
  intros Htoken Hvalid Hutc Hyear Hint Hfits Hin.
  unfold Client.receiveChallenge, Read. rewrite Hin. cbn [bind].
  rewrite firstn_all2 by assumption.
  destruct (Itoa_shape difficulty) as [front [d [Hd [Hitoa HnoI]]]].
  pose proof (noSeparator_token token Htoken) as HnoT.
  pose proof (noSeparator_Format timestamp Hvalid Hutc Hyear) as HnoF.
  unfold Server.challengeMessage.
  set (F := Time.FormatRFC3339Nano timestamp) in *.
  assert (Hline :
    lit "Challenge:" ++ token ++ lit ";Timestamp:" ++ F ++ lit ";Difficulty:" ++
      Itoa difficulty ++ ["010"%char] =
    ("C"%char :: (lit "hallenge:" ++ token ++ lit ";Timestamp:" ++ F ++
                  lit ";Difficulty:" ++ front) ++ [digitChar d]) ++ ["010"%char]).
  { rewrite Hitoa. cbn [lit list_ascii_of_string app].
    repeat (rewrite <- app_assoc; cbn [app]). reflexivity. }
  rewrite Hline, TrimSpace_line by assumption.
  assert (Hbody :
    "C"%char :: (lit "hallenge:" ++ token ++ lit ";Timestamp:" ++ F ++
                 lit ";Difficulty:" ++ front) ++ [digitChar d] =
    (lit "Challenge:" ++ token) ++ ";"%char ::
      ((lit "Timestamp:" ++ F) ++ ";"%char :: (lit "Difficulty:" ++ Itoa difficulty))).
  { rewrite Hitoa. cbn [lit list_ascii_of_string app].
    repeat (rewrite <- app_assoc; cbn [app]). reflexivity. }
  rewrite Hbody.
  rewrite Split_field by (apply noSeparator_app; [reflexivity | assumption]).
  rewrite Split_field by (apply noSeparator_app; [reflexivity | assumption]).
  rewrite Split_whole by (apply noSeparator_app; [reflexivity | assumption]).
  rewrite !TrimPrefix_app.
  subst F. rewrite (Parse_Format timestamp Hvalid Hutc Hyear). cbn [wrapErr bind].
  rewrite (Atoi_Itoa difficulty Hint). reflexivity.
Qed.

(** A decoded solution with an expired timestamp: the session ends with
    the error line written. *)
Lemma handleConnection_rejects_expired (inputs : nat -> Server.input)
    (s : Server.WordOfWisdomServer) (c : Conn) (nonce : gostring) (cts : Time.Time) :
  writable c = true ->
  Server.receiveResponse c = Val (nonce, cts) ->
  Time.Since (Server.now (inputs 4%nat)) cts > TimeWindow (Server.config s) ->
  sent (Server.conn (snd (Server.handleConnection inputs s c))) =
    sent c ++
    Server.challengeMessage (Server.generateChallenge (Server.intn (inputs 2%nat)))
      (Server.now (inputs 2%nat))
      (Server.adjustDifficulty (Server.incrementClientLoad s)) ++
    invalidProofLine.
Proof.
  intros Hw Hrecv Hold.
  rewrite (handleConnection_verdict inputs s c nonce cts (Val false) Hw Hrecv).
  - cbn [snd Server.conn sent]. now rewrite <- app_assoc.
  - rewrite verifyPoW_unfold.
    change (Server.config (Server.incrementClientLoad s)) with (Server.config s).
    destruct (Z.gtb_spec (Time.Since (Server.now (inputs 4%nat)) cts)
                (TimeWindow (Server.config s))); [reflexivity | lia].
Qed.

Lemma skipn_app_exact {A : Type} (a b : list A) : skipn (length a) (a ++ b) = b.
Proof.
  replace (length a) with (length a + 0)%nat by lia.
  rewrite skipn_app, skipn_all2 by lia.
  replace (length a + 0 - length a)%nat with 0%nat by lia. reflexivity.
Qed.

Lemma response_fits (n : Z) (cts : Time.Time) :
  inInt n -> Time.validTime cts = true -> Time.offset cts = 0 ->
  0 <= Time.year cts <= 9999 ->
  (length (Client.responseMessage (Itoa n) cts) <= 4096)%nat.
Proof.
  intros Hn Hvalid Hutc Hyear. unfold Client.responseMessage. rewrite !length_app.
  pose proof (Format_length cts Hvalid Hutc Hyear).
  pose proof (Itoa_length n Hn).
  cbn [lit list_ascii_of_string length]. lia.
Qed.

End ClientAgainstServer.



(** ** What [Run] does with any peer *)

Section RunOutcomes.

Lemma solveLoop_no_panic (done : nat -> bool) (challenge : gostring)
    (serverTimestamp : Time.Time) (requiredPrefix : gostring) (fuel : nat) :
  forall (k : nat) (start : Z) (p : panic),
    Client.solveLoop fuel done k challenge serverTimestamp requiredPrefix start <>
    Some (Panic p).
Proof.
  induction fuel as [|fuel IH]; intros k start p; [discriminate|].
  cbn [Client.solveLoop]. destruct (done k); [discriminate|].
  destruct (HasPrefix _ requiredPrefix); [discriminate | apply IH].
Qed.

Lemma solvePoW_panic (c : Client.WordOfWisdomClient) (fuel : nat)
    (done : nat -> bool) (challenge : gostring) (serverTimestamp : Time.Time)
    (difficulty : Z) (p : panic) :
  Client.solvePoW c fuel done challenge serverTimestamp difficulty = Some (Panic p) ->
  difficulty < 0 /\ p = NegativeRepeatCount.
Proof.
  unfold Client.solvePoW. intros H.
  destruct (Z.lt_ge_cases difficulty 0) as [Hneg|Hd].
  - rewrite Repeat_negative in H by assumption. injection H as <-. auto.
  - rewrite Repeat_zero in H by lia. exfalso. now apply solveLoop_no_panic in H.
Qed.

Lemma receiveChallenge_returns (conn : Conn) :
  returns (incoming conn) -> returns (Client.receiveChallenge conn).
Proof.
  unfold Client.receiveChallenge, Read. intros Hin.
  destruct (incoming conn) as [data|e|p]; [|exact I|destruct Hin].
  cbn [bind].
  destruct (Split (TrimSpace (firstn 4096 data)) ";") as [|f0 [|f1 [|f2 [|f3 r]]]];
    try exact I.
  pose proof (Parse_returns (TrimPrefix f1 (lit "Timestamp:"))) as Hpt.
  pose proof (Atoi_returns (TrimPrefix f2 (lit "Difficulty:"))) as Hpi.
  destruct (Time.ParseRFC3339Nano (TrimPrefix f1 (lit "Timestamp:")))
    as [t|e|p]; [|exact I|destruct Hpt].
  destruct (Atoi (TrimPrefix f2 (lit "Difficulty:"))) as [d|e|p];
    [exact I | exact I | destruct Hpi].
Qed.

Lemma receiveServerResponse_returns (conn : Conn) :
  returns (incoming conn) -> returns (ClientRun.receiveServerResponse conn).
Proof.
  unfold ClientRun.receiveServerResponse, Read. intros Hin.
  destruct (incoming conn) as [data|e|p]; [|exact I|destruct Hin].
  cbn [bind]. destruct (HasPrefix _ (lit "Quote:")); [exact I|].
  destruct (HasPrefix _ (lit "Error:")); exact I.
Qed.

End RunOutcomes.



(** ** The fields of a solution message *)

Section ResponseFields.

Lemma Split_length (s : gostring) :
  length (Split s ";") = S (count_occ ascii_dec s ";"%char).
Proof.
  induction s as [|c s IH]; [reflexivity|].
  cbn [Split count_occ].
  destruct (Ascii.eqb_spec c ";") as [->|Hne].
  - destruct (ascii_dec ";" ";") as [_|Habs]; [|contradiction].
    cbn [length]. now rewrite IH.
  - destruct (ascii_dec c ";") as [Habs|_]; [contradiction|].
    destruct (Split s ";") as [|h t]; [cbn in IH; lia | exact IH].
Qed.

End ResponseFields.

(** X17. [receiveResponse] returns the error of a failed read as it
    is. A message read is an invalid response format exactly when, once
    its surrounding white space is removed, it does not hold exactly one
    semicolon; in particular an empty message is one. *)
Theorem receiveResponse_field_count (conn : Conn) :
  (forall e, incoming conn = Fail e -> Server.receiveResponse conn = Fail e) /\
  (forall data, incoming conn = Val data ->
     let message := TrimSpace (firstn 4096 data) in
     (count_occ ascii_dec message ";"%char <> 1%nat ->
        Server.receiveResponse conn = Fail ErrInvalidResponseFormat) /\
     (count_occ ascii_dec message ";"%char = 1%nat ->
        Server.receiveResponse conn <> Fail ErrInvalidResponseFormat)) /\
  (incoming conn = Val [] ->
     Server.receiveResponse conn = Fail ErrInvalidResponseFormat).
Proof.
  split; [|split].
  - intros e He. unfold Server.receiveResponse, Read. now rewrite He.
  - intros data Hdata message. unfold Server.receiveResponse, Read.
    rewrite Hdata. cbn [bind]. fold message. unfold Server.parseResponse.
    pose proof (Split_length message) as Hlen.
    split; intros Hcount.
    + destruct (Split message ";") as [|f0 [|f1 [|f2 r]]]; try reflexivity.
      cbn [length] in Hlen. exfalso. apply Hcount. lia.
    + destruct (Split message ";") as [|f0 [|f1 [|f2 r]]];
        cbn [length] in Hlen; try lia.
      destruct (Time.ParseRFC3339Nano (TrimPrefix f1 (lit "Timestamp:")));
        cbn; discriminate.
  - intros Hdata. unfold Server.receiveResponse, Read. rewrite Hdata. reflexivity.
Qed.
